(** * Observable containers: a shallow embedding and its properties

    The development follows the Python package file by file:
    [Observable] (the two observer lists and their dispatch loops),
    [ObservableValue] (a slot with bindings), [ObservableList],
    [ObservableDict] and [ObservableObject].

    Python objects are mutable and callbacks are arbitrary callables.  The
    embedding makes both explicit: every method is a function of a world
    (the storage of the objects involved and the trace of callback
    invocations performed so far) that returns an outcome together with the
    world it leaves behind, also when it raises. *)

From Stdlib Require Import ZArith String Ascii.
From stdpp Require Import base option list gmap strings.

Open Scope Z_scope.
Open Scope string_scope.
Open Scope list_scope.

(** ** Values

    The values stored in containers and passed to observers: [None],
    integers, strings, lists of values, function objects (compared by
    identity), the bound methods of the observed object itself (equal
    when they bind the same method) and the float [nan].  A [nan] is an
    object like any other, told apart from other [nan] objects by its
    identity, and it is the one value of the universe that is not equal to
    itself. *)

#[local] Unset Elimination Schemes.
Inductive value : Type :=
  | VNone
  | VInt (z : Z)
  | VStr (s : string)
  | VList (elems : list value)
  | VFun (f : nat)
  | VMethod (name : string)
  | VNaN (id : nat).
#[local] Set Elimination Schemes.

(** Induction on values that reaches the elements of a list. *)
Section ValueInduction.
Variable P : value → Prop.
Hypothesis HNone : P VNone.
Hypothesis HInt : ∀ z, P (VInt z).
Hypothesis HStr : ∀ s, P (VStr s).
Hypothesis HList : ∀ xs, Forall P xs → P (VList xs).
Hypothesis HFun : ∀ f, P (VFun f).
Hypothesis HMethod : ∀ n, P (VMethod n).
Hypothesis HNaN : ∀ i, P (VNaN i).

Fixpoint value_ind (v : value) : P v :=
  match v with
  | VNone => HNone
  | VInt z => HInt z
  | VStr s => HStr s
  | VList xs =>
      HList xs ((fix all (l : list value) : Forall P l :=
                   match l with
                   | [] => @List.Forall_nil _ P
                   | x :: l' => @List.Forall_cons _ P x l' (value_ind x) (all l')
                   end) xs)
  | VFun f => HFun f
  | VMethod n => HMethod n
  | VNaN i => HNaN i
  end.
End ValueInduction.

(** [a is b or a == b], the comparison the builtin containers make when
    they search for an element or a key and when they compare their
    elements one by one.  Two [nan] pass it when they are the same
    object. *)
Fixpoint py_same (a b : value) {struct a} : bool :=
  match a, b with
  | VNone, VNone => true
  | VInt x, VInt y => bool_decide (x = y)
  | VStr s, VStr t => bool_decide (s = t)
  | VFun f, VFun g => bool_decide (f = g)
  | VMethod m, VMethod n => bool_decide (m = n)
  | VNaN i, VNaN j => bool_decide (i = j)
  | VList xs, VList ys =>
      (fix all2 (xs ys : list value) {struct xs} : bool :=
         match xs, ys with
         | [], [] => true
         | x :: xs', y :: ys' => py_same x y && all2 xs' ys'
         | _, _ => false
         end) xs ys
  | _, _ => false
  end.

(** [a == b]: a [nan] is equal to nothing, not even to itself; two lists
    are equal when their elements pass [py_same] one by one. *)
Definition py_eq (a b : value) : bool :=
  match a with
  | VNaN _ => false
  | _ => py_same a b
  end.

(** [hash(v)] succeeds: lists are the unhashable values of the universe. *)
Definition hashable (v : value) : bool :=
  match v with
  | VList _ => false
  | _ => true
  end.

(** [iter(v)]: the elements a [for] loop or [list.extend] draws from [v],
    when [v] is iterable. *)
Definition iterate (v : value) : option (list value) :=
  match v with
  | VList xs => Some xs
  | VStr s => Some ((λ c, VStr (String c EmptyString)) <$> list_ascii_of_string s)
  | _ => None
  end.

(** ** Exceptions and outcomes *)

Inductive exn : Type :=
  | TypeError
  | ValueError
  | IndexError
  | KeyError
  | AttributeError
  | OverflowError
  | UserError (code : nat).

(** What the embedding adds to Python's results: a call that needs more
    recursion depth than the fuel it was given, a reference to an object
    that was never allocated, and a step the embedding does not follow
    (an observer list replaced or deleted through attribute access). *)
Inductive fault : Type :=
  | OutOfFuel
  | Dangling
  | Unsupported.

Inductive outcome (A : Type) : Type :=
  | Ok (a : A)
  | Raised (e : exn)
  | Fault (f : fault).
Arguments Ok {A} a.
Arguments Raised {A} e.
Arguments Fault {A} f.

#[global] Instance exn_eq_dec : EqDecision exn.
Proof. solve_decision. Defined.

(** A method: a world transformer with a result. *)
Definition M (W A : Type) : Type := W → outcome A * W.

Definition ret {W A} (a : A) : M W A := λ w, (Ok a, w).

Definition and_then {W A B} (m : M W A) (k : A → M W B) : M W B :=
  λ w, match m w with
       | (Ok a, w') => k a w'
       | (Raised e, w') => (Raised e, w')
       | (Fault f, w') => (Fault f, w')
       end.

Definition raise {W A} (e : exn) : M W A := λ w, (Raised e, w).
Definition stop {W A} (f : fault) : M W A := λ w, (Fault f, w).
Definition gets {W A} (f : W → A) : M W A := λ w, (Ok (f w), w).
Definition modify {W} (f : W → W) : M W unit := λ w, (Ok tt, f w).

Notation "'do' x <- m ; k" := (and_then m (λ x, k))
  (at level 10, x name, m at level 100, k at level 200,
   format "'[v' 'do'  x  <-  m ; '/' k ']'").
Notation "m ;; k" := (and_then m (λ _, k))
  (at level 100, k at level 200, right associativity).

(** ** Callbacks

    A callback is a function object; two callbacks are the same handle when
    they are the same object.  Four behaviours are told apart: a callable
    that accepts whatever it is given and returns (such as [print]), a
    callable that raises, the closure [lambda _1, _2, n: self.set(n)]
    that [ObservableValue.bind_to] creates, which remembers its [self],
    and an observer [lambda _1, _2, _3: target.set(z)] written by a user,
    which sets an [ObservableValue] to an integer of its own.  The first
    two leave the observables alone; the last two write to an
    [ObservableValue].  Observers that write to a list, a dictionary or
    an object, or that change observer lists, are not in this universe:
    what is proved about a container is proved for observers that leave
    it alone, and says so. *)

(** Objects are addressed by their position in the store. *)
Abbreviation ref := nat.

Inductive callback : Type :=
  | Recorder (id : nat)
  | Raiser (id : nat) (e : exn)
  | Forwarder (id : nat) (self : ref)
  | Setter (id : nat) (target : ref) (z : Z).

#[global] Instance callback_eq_dec : EqDecision callback.
Proof. solve_decision. Defined.

Definition is_recorder (cb : callback) : Prop :=
  match cb with Recorder _ => True | _ => False end.

Definition is_setter (cb : callback) : Prop :=
  match cb with Setter _ _ _ => True | _ => False end.

(** An observer that writes to no observable: it returns or raises. *)
Definition passive (cb : callback) : Prop :=
  match cb with Recorder _ | Raiser _ _ => True | _ => False end.

(** [cb1 == cb2] on function objects. *)
Definition callback_eq (cb1 cb2 : callback) : bool := bool_decide (cb1 = cb2).

(** [list.remove(x)]: drops the first element [y] with [y == x]; [None]
    stands for the [ValueError] of a list that holds no such element. *)
Fixpoint list_remove {A} (eq : A → A → bool) (x : A) (l : list A) : option (list A) :=
  match l with
  | [] => None
  | y :: l' => if eq y x then Some l' else (y ::.) <$> list_remove eq x l'
  end.

(** ** Observable.py *)

Module Observable.

Record t : Type := Make {
  _beforeObserverList : list callback;
  _afterObserverList : list callback
}.

Definition __init__ : t :=
  {| _beforeObserverList := []; _afterObserverList := [] |}.

Definition add_before_observer (callback : callback) (o : t) : t :=
  {| _beforeObserverList := _beforeObserverList o ++ [callback];
     _afterObserverList := _afterObserverList o |}.

Definition add_after_observer (callback : callback) (o : t) : t :=
  {| _beforeObserverList := _beforeObserverList o;
     _afterObserverList := _afterObserverList o ++ [callback] |}.

Definition remove_before_observer (callback : callback) (o : t) : option t :=
  l ← list_remove callback_eq callback (_beforeObserverList o);
  Some {| _beforeObserverList := l; _afterObserverList := _afterObserverList o |}.

Definition remove_after_observer (callback : callback) (o : t) : option t :=
  l ← list_remove callback_eq callback (_afterObserverList o);
  Some {| _beforeObserverList := _beforeObserverList o; _afterObserverList := l |}.

(** The loop [for callback in observers: callback(args)] shared by
    [_call_before_observers] and [_call_after_observers].  How a callback
    runs depends on the world it runs in, so the call itself is a
    parameter.  No callback of the embedding changes an observer list, so
    the loop runs over the list as it was when the loop started. *)
Section Dispatch.
Context {W E : Type}.
Variable call : callback → E → M W unit.

Fixpoint call_each (observers : list callback) (args : E) : M W unit :=
  match observers with
  | [] => ret tt
  | callback :: rest => call callback args ;; call_each rest args
  end.
End Dispatch.

End Observable.

(** ** ObservableValue.py

    Several values live side by side and refer to each other through their
    bindings, so the world is a store of [ObservableValue] objects
    addressed by reference.  [set] re-enters itself through the forwarding
    closures; its recursion depth is bounded by a fuel argument. *)

Module ObservableValue.

Record t : Type := Make {
  observable : Observable.t;
  _value : value;
  _bindingMap : gmap ref callback
}.

(** The positional arguments [(self, old_value, new_value)] of a callback. *)
Record args : Type := Args {
  source : ref;
  old_value : value;
  new_value : value
}.

Record world : Type := World {
  heap : list t;
  next_id : nat;
  trace : list (callback * args)
}.

(** What a method may be handed where it expects an [ObservableValue]. *)
Inductive object : Type :=
  | Obs (r : ref)
  | Plain (v : value).

Definition empty : world := {| heap := []; next_id := 0; trace := [] |}.

Definition with_observable (f : Observable.t → Observable.t) (o : t) : t :=
  {| observable := f (observable o); _value := _value o;
     _bindingMap := _bindingMap o |}.

Definition with_value (v : value) (o : t) : t :=
  {| observable := observable o; _value := v; _bindingMap := _bindingMap o |}.

Definition with_bindingMap (f : gmap ref callback → gmap ref callback) (o : t) : t :=
  {| observable := observable o; _value := _value o;
     _bindingMap := f (_bindingMap o) |}.

Definition load (self : ref) : M world t :=
  λ w, match heap w !! self with
       | Some o => (Ok o, w)
       | None => (Fault Dangling, w)
       end.

Definition store (self : ref) (f : t → t) : M world unit :=
  do o <- load self;
  modify (λ w, {| heap := <[self := f o]> (heap w); next_id := next_id w;
                  trace := trace w |}).

Definition log (cb : callback) (a : args) : M world unit :=
  modify (λ w, {| heap := heap w; next_id := next_id w;
                  trace := trace w ++ [(cb, a)] |}).

(** A new function object. *)
Definition fresh : M world nat :=
  λ w, (Ok (next_id w),
        {| heap := heap w; next_id := S (next_id w); trace := trace w |}).

Definition __init__ (initial_value : value) : M world ref :=
  λ w, (Ok (length (heap w)),
        {| heap := heap w ++ [{| observable := Observable.__init__;
                                 _value := initial_value;
                                 _bindingMap := ∅ |}];
           next_id := next_id w; trace := trace w |}).

Definition add_before_observer (self : ref) (callback : callback) : M world unit :=
  store self (with_observable (Observable.add_before_observer callback)).

Definition add_after_observer (self : ref) (callback : callback) : M world unit :=
  store self (with_observable (Observable.add_after_observer callback)).

Definition remove_before_observer (self : ref) (callback : callback) : M world unit :=
  do o <- load self;
  match Observable.remove_before_observer callback (observable o) with
  | Some o' => store self (with_observable (λ _, o'))
  | None => raise ValueError
  end.

Definition remove_after_observer (self : ref) (callback : callback) : M world unit :=
  do o <- load self;
  match Observable.remove_after_observer callback (observable o) with
  | Some o' => store self (with_observable (λ _, o'))
  | None => raise ValueError
  end.

(** Calling one callback with [(self, old_value, new_value)]: the call is
    traced, then the body runs.  [set] is the method the closures of
    [bind_to] call back into. *)
Definition call (set : ref → value → M world unit)
    (cb : callback) (a : args) : M world unit :=
  log cb a ;;
  match cb with
  | Recorder _ => ret tt
  | Raiser _ e => raise e
  | Forwarder _ self => set self (new_value a)
  | Setter _ target z => set target (VInt z)
  end.

Definition _call_before_observers (set : ref → value → M world unit)
    (self : ref) (a : args) : M world unit :=
  do o <- load self;
  Observable.call_each (call set) (Observable._beforeObserverList (observable o)) a.

Definition _call_after_observers (set : ref → value → M world unit)
    (self : ref) (a : args) : M world unit :=
  do o <- load self;
  Observable.call_each (call set) (Observable._afterObserverList (observable o)) a.

Fixpoint set (fuel : nat) (self : ref) (new_value : value) {struct fuel}
    : M world unit :=
  match fuel with
  | O => λ w, (Fault OutOfFuel, w)
  | S fuel' =>
      do o <- load self;
      if py_eq (_value o) new_value then ret tt
      else
        let old_value := _value o in
        _call_before_observers (set fuel') self (Args self old_value new_value) ;;
        store self (with_value new_value) ;;
        _call_after_observers (set fuel') self (Args self old_value new_value)
  end.

Definition get (self : ref) : M world value :=
  do o <- load self; ret (_value o).

Definition bind_to (fuel : nat) (self : ref) (observable : object) : M world unit :=
  match observable with
  | Plain _ => raise TypeError
  | Obs other =>
      do id <- fresh;
      store self (with_bindingMap (insert other (Forwarder id self))) ;;
      do o <- load self;
      match _bindingMap o !! other with
      | None => raise KeyError
      | Some handle =>
          add_after_observer other handle ;;
          do v <- get other;
          set fuel self v
      end
  end.

Definition unbind_from (self : ref) (observable : object) : M world unit :=
  do o <- load self;
  match observable with
  | Plain v => if hashable v then raise AttributeError else raise TypeError
  | Obs other =>
      match _bindingMap o !! other with
      | None => raise AttributeError
      | Some handle =>
          remove_after_observer self handle ;;
          store self (with_bindingMap (delete other))
      end
  end.

(** [obs.bind_to] and [obs.unbind_from] exist on ObservableValues only. *)
Definition receiver (obs : object) : M world ref :=
  match obs with
  | Obs r => ret r
  | Plain _ => raise AttributeError
  end.

Definition bind (fuel : nat) (obs1 obs2 : object) : M world unit :=
  do r2 <- receiver obs2;
  bind_to fuel r2 obs1 ;;
  do r1 <- receiver obs1;
  bind_to fuel r1 obs2.

Definition unbind (obs1 obs2 : object) : M world unit :=
  do r1 <- receiver obs1;
  unbind_from r1 obs2 ;;
  do r2 <- receiver obs2;
  unbind_from r2 obs1.

(** The value an object holds in a world, for stating results. *)
Definition value_of (w : world) (r : ref) : option value :=
  _value <$> heap w !! r.

Definition after_observers (w : world) (r : ref) : option (list callback) :=
  (λ o, Observable._afterObserverList (observable o)) <$> heap w !! r.

Definition binding (w : world) (r other : ref) : option callback :=
  heap w !! r ≫= λ o, _bindingMap o !! other.

(** The entries one dispatch of [a] to [observers] adds to the trace. *)
Definition calls (observers : list callback) (a : args) : list (callback * args) :=
  (λ cb, (cb, a)) <$> observers.

(** The world after [observers] have been called with [a] and returned. *)
Definition logged (observers : list callback) (a : args) (w : world) : world :=
  {| heap := heap w; next_id := next_id w; trace := trace w ++ calls observers a |}.

(** The world after [self._value = v], for the object [o] that [self] is. *)
Definition stored (self : ref) (o : t) (v : value) (w : world) : world :=
  {| heap := <[self := with_value v o]> (heap w); next_id := next_id w;
     trace := trace w |}.


(** What [set(v)] and the dispatches under it may do to a world: objects
    are neither created nor lost, observer lists and binding maps stay,
    a value either stays or becomes [v], and the calls added to the trace
    are announcements by objects in [P]. *)
Definition settles (v : value) (P : ref → Prop) (w w' : world) : Prop :=
  next_id w' = next_id w ∧
  (∀ r, match heap w !! r with
        | Some o =>
            ∃ o', heap w' !! r = Some o' ∧ observable o' = observable o ∧
                  _bindingMap o' = _bindingMap o ∧
                  (_value o' = _value o ∨ _value o' = v)
        | None => heap w' !! r = None
        end) ∧
  ∃ t, trace w' = trace w ++ t ∧ Forall (λ c, P (source c.2)) t.

(** What every [set] does, whatever the observers do: objects are neither
    created nor lost, and observer lists and binding maps stay. *)
Definition keeps (w w' : world) : Prop :=
  next_id w' = next_id w ∧
  ∀ r, match heap w !! r with
       | Some o =>
           ∃ o', heap w' !! r = Some o' ∧ observable o' = observable o ∧
                 _bindingMap o' = _bindingMap o
       | None => heap w' !! r = None
       end.

(** The objects that announce a change to [v] did not hold [v], as long as
    [v] is equal to itself. *)
Definition changed (v : value) (w : world) (r : ref) : Prop :=
  py_eq v v = true → value_of w r ≠ Some v.


(** The number of objects that do not hold [v]. *)
Definition pending (v : value) (w : world) : nat :=
  length (List.filter (λ o, negb (py_eq (_value o) v)) (heap w)).

(** The before-observers of all objects leave the observables alone;
    closures of [bind_to] are after-observers, which is where [bind_to]
    registers them. *)
Definition forwards_after_only (w : world) : Prop :=
  Forall (λ o, Forall passive (Observable._beforeObserverList (observable o)))
    (heap w).

(** No object has an observer that sets a value of its own choice: the
    observers return, raise or are closures of [bind_to]. *)
Definition no_setters (w : world) : Prop :=
  Forall (λ o, Forall (λ cb, ¬ is_setter cb)
                 (Observable._beforeObserverList (observable o)) ∧
               Forall (λ cb, ¬ is_setter cb)
                 (Observable._afterObserverList (observable o)))
    (heap w).

(** The closures registered as after-observers were created before the
    next function object will be: [next_id] is a new identity. *)
Definition closures_allocated (w : world) : Prop :=
  ∀ r o id target,
    heap w !! r = Some o →
    Forwarder id target ∈ Observable._afterObserverList (observable o) →
    (id < next_id w)%nat.

(** [a = ObservableValue(1); b = ObservableValue(2)] *)
Definition two_values (x y : value) : M world (ref * ref) :=
  do a <- __init__ x;
  do b <- __init__ y;
  ret (a, b).

End ObservableValue.

(** ** What the three containers share

    [ObservableList], [ObservableDict] and [ObservableObject] each combine
    a primitive storage with the [Observable] base class.  One container is
    observed at a time: the world is its storage, its observers and the
    trace of the calls made to them. *)

Module Container.

(** The positional arguments [(self, operation, key, old_value,
    new_value)] of a callback; [self] is the container of the world. *)
Record event : Type := Event {
  operation : string;
  locator : value;
  old_value : value;
  new_value : value
}.

Record world (T : Type) : Type := World {
  storage : T;
  observable : Observable.t;
  trace : list (callback * event)
}.
Arguments World {T} _ _ _.
Arguments storage {T} _.
Arguments observable {T} _.
Arguments trace {T} _.

Section Methods.
Context {T : Type}.

Definition read : M (world T) T := gets storage.

Definition write (x : T) : M (world T) unit :=
  modify (λ w, {| storage := x; observable := observable w; trace := trace w |}).

Definition log (cb : callback) (ev : event) : M (world T) unit :=
  modify (λ w, {| storage := storage w; observable := observable w;
                  trace := trace w ++ [(cb, ev)] |}).

(** Calling one callback with the five arguments.  The closure of
    [ObservableValue.bind_to] and the observer that sets a value take
    three parameters, so calling them with five is a [TypeError]. *)
Definition call (cb : callback) (ev : event) : M (world T) unit :=
  log cb ev ;;
  match cb with
  | Recorder _ => ret tt
  | Raiser _ e => raise e
  | Forwarder _ _ | Setter _ _ _ => raise TypeError
  end.

Definition _call_before_observers (ev : event) : M (world T) unit :=
  do o <- gets observable;
  Observable.call_each call (Observable._beforeObserverList o) ev.

Definition _call_after_observers (ev : event) : M (world T) unit :=
  do o <- gets observable;
  Observable.call_each call (Observable._afterObserverList o) ev.

Definition with_observable (o : Observable.t) : M (world T) unit :=
  modify (λ w, {| storage := storage w; observable := o; trace := trace w |}).

Definition add_before_observer (callback : callback) : M (world T) unit :=
  do o <- gets observable;
  with_observable (Observable.add_before_observer callback o).

Definition add_after_observer (callback : callback) : M (world T) unit :=
  do o <- gets observable;
  with_observable (Observable.add_after_observer callback o).

Definition remove_before_observer (callback : callback) : M (world T) unit :=
  do o <- gets observable;
  match Observable.remove_before_observer callback o with
  | Some o' => with_observable o'
  | None => raise ValueError
  end.

Definition remove_after_observer (callback : callback) : M (world T) unit :=
  do o <- gets observable;
  match Observable.remove_after_observer callback o with
  | Some o' => with_observable o'
  | None => raise ValueError
  end.

(** A builtin that fails with [e] when it has no result. *)
Definition expect {A} (e : exn) (r : option A) : M (world T) A :=
  match r with
  | Some a => ret a
  | None => raise e
  end.


End Methods.

(** The entries one dispatch of [ev] to [observers] adds to the trace. *)
Definition calls (observers : list callback) (ev : event) : list (callback * event) :=
  (λ cb, (cb, ev)) <$> observers.

(** The entries a before-dispatch and an after-dispatch of [ev] add. *)
Definition pair_of_calls (o : Observable.t) (ev : event) : list (callback * event) :=
  calls (Observable._beforeObserverList o) ev ++ calls (Observable._afterObserverList o) ev.

(** The exception a callback raises when it is called with five arguments. *)
Definition raises (cb : callback) : option exn :=
  match cb with
  | Recorder _ => None
  | Raiser _ e => Some e
  | Forwarder _ _ | Setter _ _ _ => Some TypeError
  end.

(** The observers a dispatch reaches, and the exception that ends it. *)
Fixpoint reached (observers : list callback) : list callback * option exn :=
  match observers with
  | [] => ([], None)
  | cb :: rest =>
      match raises cb with
      | Some e => ([cb], Some e)
      | None => (cb :: (reached rest).1, (reached rest).2)
      end
  end.



(** The shape the methods share, used to reason about all of them at
    once: a method refuses its arguments before it announces anything,
    leaves the embedding, returns without a change to announce, stores
    without announcing, or announces [ev], runs the builtin ([m] is the
    builtin's outcome and the storage it leaves) and announces [ev]
    again. *)
Inductive step (T R : Type) : Type :=
  | Refuse (e : exn)
  | Stop (f : fault)
  | Skip (r : R)
  | Quiet (t : T) (r : R)
  | Fire (ev : event) (m : outcome R * T).
Arguments Refuse {T R} e.
Arguments Stop {T R} f.
Arguments Skip {T R} r.
Arguments Quiet {T R} t r.
Arguments Fire {T R} ev m.

Definition run {T R} (s : step T R) : M (world T) R :=
  match s with
  | Refuse e => raise e
  | Stop f => stop f
  | Skip r => ret r
  | Quiet t r => write t ;; ret r
  | Fire ev m =>
      _call_before_observers ev ;;
      do r <- (λ w, (m.1, {| storage := m.2; observable := observable w;
                             trace := trace w |}));
      _call_after_observers ev ;;
      ret r
  end.


End Container.

(** ** ObservableList.py *)

Module ObservableList.
Import Container.

Definition APPEND : string := "append".
Definition INSERT : string := "insert".
Definition MODIFY : string := "modify".
Definition DELETE : string := "delete".
Definition CLEAR : string := "clear".
Definition EXTEND : string := "extend".
Definition REVERSE : string := "reverse".
Definition SORT : string := "sort".

Abbreviation world := (Container.world (list value)).

(** *** The builtin [list] methods the class calls *)

(** The position an integer index denotes in a list of [n] elements:
    negative indices count from the end. *)
Definition position (n : nat) (index : Z) : option nat :=
  if decide (0 ≤ index < Z.of_nat n) then Some (Z.to_nat index)
  else if decide (- Z.of_nat n ≤ index < 0) then Some (Z.to_nat (Z.of_nat n + index))
  else None.

(** [list.__getitem__], [None] for [IndexError]. *)
Definition list_getitem (index : Z) (l : list value) : option value :=
  position (length l) index ≫= λ i, l !! i.

(** [list.__setitem__], [None] for [IndexError]. *)
Definition list_setitem (index : Z) (v : value) (l : list value) : option (list value) :=
  (λ i, <[i := v]> l) <$> position (length l) index.

(** [list.insert], [None] for [OverflowError]: an index beyond either end
    is clamped, unless it does not fit a machine word.  A list has fewer
    than 2^63 elements, so an index that does not fit is beyond an end;
    the test is written so that it holds of no index inside the list. *)
Definition list_insert (index : Z) (v : value) (l : list value) : option (list value) :=
  let n := Z.of_nat (length l) in
  if decide ((2 ^ 63 ≤ index ∧ n ≤ index) ∨ (index < - 2 ^ 63 ∧ index < - n))%Z
  then None
  else
    let i := if decide (index < 0) then Z.max 0 (index + n) else Z.min index n in
    Some (take (Z.to_nat i) l ++ v :: drop (Z.to_nat i) l).

(** [list.pop], [None] for [IndexError]. *)
Definition list_pop (index : Z) (l : list value) : option (value * list value) :=
  position (length l) index ≫= λ i, (λ v, (v, delete i l)) <$> l !! i.

(** [list.index], [None] for [ValueError]. *)
Fixpoint list_index (v : value) (l : list value) : option nat :=
  match l with
  | [] => None
  | y :: l' => if py_same y v then Some O else S <$> list_index v l'
  end.

(** *** The methods of the class *)

Section Methods.
(** [list.sort(key=..., reverse=...)] runs the comparison and key
    functions of its elements; it is the one builtin taken as given.
    It leaves a list behind also when it raises. *)
Variable list_sort : value → value → M (list value) unit.

Definition __init__ (seq : list value) : world :=
  {| storage := seq; observable := Observable.__init__; trace := [] |}.

Definition append (value : value) : M world unit :=
  do l <- read;
  let index := VInt (Z.of_nat (length l)) in
  _call_before_observers (Event APPEND index VNone value) ;;
  (do l <- read; write (l ++ [value])) ;;
  _call_after_observers (Event APPEND index VNone value).

Definition clear : M world unit :=
  _call_before_observers (Event CLEAR VNone VNone VNone) ;;
  write [] ;;
  _call_after_observers (Event CLEAR VNone VNone VNone).

Definition extend (iterable : value) : M world unit :=
  do l <- read;
  let index := VInt (Z.of_nat (length l)) in
  _call_before_observers (Event EXTEND index VNone iterable) ;;
  (do l <- read;
   do xs <- expect TypeError (iterate iterable);
   write (l ++ xs)) ;;
  _call_after_observers (Event EXTEND index VNone iterable).

Definition insert (index : Z) (value : value) : M world unit :=
  do l <- read;
  do old_value <- (if decide (index < Z.of_nat (length l))
                   then expect IndexError (list_getitem index l)
                   else ret VNone);
  _call_before_observers (Event INSERT (VInt index) old_value value) ;;
  (do l <- read;
   do l' <- expect OverflowError (list_insert index value l);
   write l') ;;
  _call_after_observers (Event INSERT (VInt index) old_value value).

Definition pop (index : Z) : M world value :=
  do l <- read;
  do old_value <- expect IndexError (list_getitem index l);
  _call_before_observers (Event DELETE (VInt index) old_value VNone) ;;
  do result <- (do l <- read;
                do r <- expect IndexError (list_pop index l);
                write r.2 ;; ret r.1);
  _call_after_observers (Event DELETE (VInt index) old_value VNone) ;;
  ret result.

Definition remove (value : value) : M world unit :=
  do l <- read;
  do index <- expect ValueError (list_index value l);
  _call_before_observers (Event DELETE (VInt (Z.of_nat index)) value VNone) ;;
  (do l <- read;
   do l' <- expect ValueError (list_remove py_same value l);
   write l') ;;
  _call_after_observers (Event DELETE (VInt (Z.of_nat index)) value VNone).

Definition reverse : M world unit :=
  _call_before_observers (Event REVERSE VNone VNone VNone) ;;
  (do l <- read; write (rev l)) ;;
  _call_after_observers (Event REVERSE VNone VNone VNone).

Definition sort (key reverse : value) : M world unit :=
  _call_before_observers (Event SORT VNone key reverse) ;;
  (λ w, let '(r, l) := list_sort key reverse (storage w) in
        (r, {| storage := l; observable := observable w; trace := trace w |})) ;;
  _call_after_observers (Event SORT VNone key reverse).

Definition __setitem__ (index : Z) (value : value) : M world unit :=
  do l <- read;
  do old_value <- expect IndexError (list_getitem index l);
  if py_eq old_value value then ret tt
  else
    _call_before_observers (Event MODIFY (VInt index) old_value value) ;;
    (do l <- read;
     do l' <- expect IndexError (list_setitem index value l);
     write l') ;;
    _call_after_observers (Event MODIFY (VInt index) old_value value).

(** [dict.__delitem__(self, index)]: the slot wrapper of [dict] refuses
    a receiver that is not a [dict], and an [ObservableList] is not. *)
Definition dict___delitem__ (index : Z) : M world unit := raise TypeError.

Definition __delitem__ (index : Z) : M world unit :=
  do l <- read;
  do old_value <- expect IndexError (list_getitem index l);
  _call_before_observers (Event DELETE (VInt index) old_value VNone) ;;
  dict___delitem__ index ;;
  _call_after_observers (Event DELETE (VInt index) old_value VNone).


(** The mutating methods the class defines, and what each returns. *)
Inductive op : Type :=
  | Append (value : value)
  | Clear
  | Extend (iterable : value)
  | Insert (index : Z) (value : value)
  | Pop (index : Z)
  | Remove (value : value)
  | Reverse
  | Sort (key reverse : value)
  | SetItem (index : Z) (value : value)
  | DelItem (index : Z).

Definition exec (o : op) : M world value :=
  match o with
  | Append v => append v ;; ret VNone
  | Clear => clear ;; ret VNone
  | Extend it => extend it ;; ret VNone
  | Insert i v => insert i v ;; ret VNone
  | Pop i => pop i
  | Remove v => remove v ;; ret VNone
  | Reverse => reverse ;; ret VNone
  | Sort k r => sort k r ;; ret VNone
  | SetItem i v => __setitem__ i v ;; ret VNone
  | DelItem i => __delitem__ i ;; ret VNone
  end.

(** Each call as a step from the list it finds. *)
Definition plan (o : op) (l : list value) : step (list value) value :=
  let n := Z.of_nat (length l) in
  match o with
  | Append v => Fire (Event APPEND (VInt n) VNone v) (Ok VNone, l ++ [v])
  | Clear => Fire (Event CLEAR VNone VNone VNone) (Ok VNone, [])
  | Extend it =>
      Fire (Event EXTEND (VInt n) VNone it)
        match iterate it with
        | Some xs => (Ok VNone, l ++ xs)
        | None => (Raised TypeError, l)
        end
  | Insert i v =>
      let inserted :=
        match list_insert i v l with
        | Some l' => (Ok VNone, l')
        | None => (Raised OverflowError, l)
        end in
      if decide (i < n) then
        match list_getitem i l with
        | Some old => Fire (Event INSERT (VInt i) old v) inserted
        | None => Refuse IndexError
        end
      else Fire (Event INSERT (VInt i) VNone v) inserted
  | Pop i =>
      match list_getitem i l with
      | Some old =>
          Fire (Event DELETE (VInt i) old VNone)
            match list_pop i l with
            | Some r => (Ok r.1, r.2)
            | None => (Raised IndexError, l)
            end
      | None => Refuse IndexError
      end
  | Remove v =>
      match list_index v l with
      | Some i =>
          Fire (Event DELETE (VInt (Z.of_nat i)) v VNone)
            match list_remove py_same v l with
            | Some l' => (Ok VNone, l')
            | None => (Raised ValueError, l)
            end
      | None => Refuse ValueError
      end
  | Reverse => Fire (Event REVERSE VNone VNone VNone) (Ok VNone, rev l)
  | Sort k r =>
      Fire (Event SORT VNone k r)
        (match (list_sort k r l).1 with
         | Ok _ => Ok VNone
         | Raised e => Raised e
         | Fault f => Fault f
         end, (list_sort k r l).2)
  | SetItem i v =>
      match list_getitem i l with
      | Some old =>
          if py_eq old v then Skip VNone
          else Fire (Event MODIFY (VInt i) old v)
                 match list_setitem i v l with
                 | Some l' => (Ok VNone, l')
                 | None => (Raised IndexError, l)
                 end
      | None => Refuse IndexError
      end
  | DelItem i =>
      match list_getitem i l with
      | Some old => Fire (Event DELETE (VInt i) old VNone) (Raised TypeError, l)
      | None => Refuse IndexError
      end
  end.

(** What each call is to announce and to leave behind, written out with
    the list operations of the standard library instead of the builtins
    above: [None] when the call announces nothing (it refuses its
    arguments, or writes the value that is already there); otherwise the
    event, together with the list the call leaves when its builtin
    succeeds.  [sort] leaves what the builtin leaves. *)
Definition change (o : op) (l : list value) : option (event * option (list value)) :=
  let n := Z.of_nat (length l) in
  match o with
  | Append v => Some (Event APPEND (VInt n) VNone v, Some (l ++ [v]))
  | Clear => Some (Event CLEAR VNone VNone VNone, Some [])
  | Extend it => Some (Event EXTEND (VInt n) VNone it, (l ++.) <$> iterate it)
  | Insert i v =>
      match position (length l) i with
      | Some j =>
          (λ old, (Event INSERT (VInt i) old v, Some (take j l ++ v :: drop j l)))
            <$> l !! j
      | None =>
          if decide (n ≤ i)%Z
          then Some (Event INSERT (VInt i) VNone v,
                     if decide (i < 2 ^ 63)%Z then Some (l ++ [v]) else None)
          else None
      end
  | Pop i =>
      j ← position (length l) i;
      old ← l !! j;
      Some (Event DELETE (VInt i) old VNone, Some (delete j l))
  | Remove v =>
      j ← list_index v l;
      Some (Event DELETE (VInt (Z.of_nat j)) v VNone, Some (delete j l))
  | Reverse => Some (Event REVERSE VNone VNone VNone, Some (rev l))
  | Sort k r =>
      Some (Event SORT VNone k r,
            match (list_sort k r l).1 with
            | Ok _ => Some (list_sort k r l).2
            | _ => None
            end)
  | SetItem i v =>
      j ← position (length l) i;
      old ← l !! j;
      if py_eq old v then None
      else Some (Event MODIFY (VInt i) old v, Some (<[j := v]> l))
  | DelItem i =>
      j ← position (length l) i;
      old ← l !! j;
      Some (Event DELETE (VInt i) old VNone, None)
  end.
End Methods.

End ObservableList.


(** ** ObservableDict.py *)

Module ObservableDict.
Import Container.

Definition CREATE : string := "create".
Definition MODIFY : string := "modify".
Definition DELETE : string := "delete".
Definition CLEAR : string := "clear".

(** A [dict] keeps its items in insertion order. *)
Abbreviation items := (list (value * value)).
Abbreviation world := (Container.world items).

(** *** The builtin [dict] methods the class calls *)

(** The value stored under a key that is [key] or equal to it. *)
Fixpoint dict_lookup (key : value) (d : items) : option value :=
  match d with
  | [] => None
  | (k, v) :: d' => if py_same k key then Some v else dict_lookup key d'
  end.

(** [dict.__setitem__]: a present key keeps its place, a new one goes last. *)
Fixpoint dict_setitem (key v : value) (d : items) : items :=
  match d with
  | [] => [(key, v)]
  | (k, x) :: d' => if py_same k key then (k, v) :: d' else (k, x) :: dict_setitem key v d'
  end.

(** [dict.__delitem__], [None] for [KeyError]. *)
Fixpoint dict_delitem (key : value) (d : items) : option items :=
  match d with
  | [] => None
  | (k, x) :: d' => if py_same k key then Some d' else ((k, x) ::.) <$> dict_delitem key d'
  end.

(** [dict.pop(key, default)] *)
Definition dict_pop (key default : value) (d : items) : value * items :=
  match dict_lookup key d, dict_delitem key d with
  | Some v, Some d' => (v, d')
  | _, _ => (default, d)
  end.

(** [dict.popitem()], [None] for [KeyError]. *)
Definition dict_popitem (d : items) : option (value * value * items) :=
  (λ kv, (kv, removelast d)) <$> last d.

(** What [update] accepts as [data]. *)
Inductive data : Type :=
  | DataNone
  | DataDict (d : items)
  | DataPairs (pairs : list (value * value)).

(** [not data] *)
Definition falsy (data : data) : bool :=
  match data with
  | DataNone | DataDict [] | DataPairs [] => true
  | _ => false
  end.

(** *** The methods of the class *)

Definition __init__ (seq : items) : world :=
  {| storage := seq; observable := Observable.__init__; trace := [] |}.

(** [key in self] *)
Definition __contains__ (key : value) : M world bool :=
  if hashable key
  then do d <- read; ret (bool_decide (is_Some (dict_lookup key d)))
  else raise TypeError.

(** [self[key]] *)
Definition __getitem__ (key : value) : M world value :=
  if hashable key
  then do d <- read; expect KeyError (dict_lookup key d)
  else raise TypeError.

Definition clear : M world unit :=
  _call_before_observers (Event CLEAR VNone VNone VNone) ;;
  write [] ;;
  _call_after_observers (Event CLEAR VNone VNone VNone).

Definition pop (key default : value) : M world value :=
  do old_value <- __getitem__ key;
  _call_before_observers (Event DELETE key old_value VNone) ;;
  do result <- (do d <- read;
                let r := dict_pop key default d in
                write r.2 ;; ret r.1);
  _call_after_observers (Event DELETE key old_value VNone) ;;
  ret result.

Definition popitem : M world (value * value) :=
  do d <- read;
  do item <- expect IndexError (last d);
  let '(key, old_value) := item in
  _call_before_observers (Event DELETE key old_value VNone) ;;
  (do d <- read;
   do r <- expect KeyError (dict_popitem d);
   write r.2) ;;
  _call_after_observers (Event DELETE key old_value VNone) ;;
  ret (key, old_value).

Definition __setitem__ (key value : value) : M world unit :=
  do exists_ <- __contains__ key;
  let operation := if exists_ : bool then MODIFY else CREATE in
  do old_value <- (if exists_ then __getitem__ key else ret VNone);
  if py_eq old_value value && bool_decide (operation = MODIFY) then ret tt
  else
    _call_before_observers (Event operation key old_value value) ;;
    (do d <- read; write (dict_setitem key value d)) ;;
    _call_after_observers (Event operation key old_value value).

Definition __delitem__ (key : value) : M world unit :=
  do old_value <- __getitem__ key;
  _call_before_observers (Event DELETE key old_value VNone) ;;
  (do d <- read;
   do d' <- expect KeyError (dict_delitem key d);
   write d') ;;
  _call_after_observers (Event DELETE key old_value VNone).

(** [kvargs[k]], [None] for [KeyError]. *)
Fixpoint kwargs_lookup (k : string) (kvargs : list (string * value)) : option value :=
  match kvargs with
  | [] => None
  | (k', v) :: rest => if decide (k' = k) then Some v else kwargs_lookup k rest
  end.

(** [for x in xs: body] *)
Fixpoint for_each {A} (xs : list A) (body : A → M world unit) : M world unit :=
  match xs with
  | [] => ret tt
  | x :: xs' => body x ;; for_each xs' body
  end.

Definition update (data : data) (kvargs : list (string * value)) : M world unit :=
  if falsy data then ret tt
  else
    match data with
    | DataDict d =>
        for_each d.*1 (λ k,
          do v <- expect KeyError (dict_lookup k d);
          __setitem__ k v)
    | DataPairs pairs =>
        for_each pairs (λ kv, __setitem__ kv.1 kv.2) ;;
        for_each kvargs.*1 (λ k,
          do v <- expect KeyError (kwargs_lookup k kvargs);
          __setitem__ (VStr k) v)
    | DataNone => ret tt
    end.


(** The mutating methods the class defines that announce at most one
    change, and what each returns; [update] is a sequence of item
    assignments. *)
Inductive op : Type :=
  | Clear
  | Pop (key default : value)
  | PopItem
  | SetItem (key value : value)
  | DelItem (key : value).

Inductive result : Type :=
  | Nothing
  | Value (v : value)
  | Item (key v : value).

Definition exec (o : op) : M world result :=
  match o with
  | Clear => clear ;; ret Nothing
  | Pop k d => do v <- pop k d; ret (Value v)
  | PopItem => do kv <- popitem; ret (Item kv.1 kv.2)
  | SetItem k v => __setitem__ k v ;; ret Nothing
  | DelItem k => __delitem__ k ;; ret Nothing
  end.

(** Each call as a step from the items it finds. *)
Definition plan (o : op) (d : items) : step items result :=
  match o with
  | Clear => Fire (Event CLEAR VNone VNone VNone) (Ok Nothing, [])
  | Pop k default =>
      if hashable k then
        match dict_lookup k d with
        | Some old =>
            Fire (Event DELETE k old VNone)
              (Ok (Value (dict_pop k default d).1), (dict_pop k default d).2)
        | None => Refuse KeyError
        end
      else Refuse TypeError
  | PopItem =>
      match last d with
      | Some kv =>
          Fire (Event DELETE kv.1 kv.2 VNone)
            match dict_popitem d with
            | Some r => (Ok (Item kv.1 kv.2), r.2)
            | None => (Raised KeyError, d)
            end
      | None => Refuse IndexError
      end
  | SetItem k v =>
      if hashable k then
        match dict_lookup k d with
        | Some old =>
            if py_eq old v then Skip Nothing
            else Fire (Event MODIFY k old v) (Ok Nothing, dict_setitem k v d)
        | None => Fire (Event CREATE k VNone v) (Ok Nothing, dict_setitem k v d)
        end
      else Refuse TypeError
  | DelItem k =>
      if hashable k then
        match dict_lookup k d with
        | Some old =>
            Fire (Event DELETE k old VNone)
              match dict_delitem k d with
              | Some d' => (Ok Nothing, d')
              | None => (Raised KeyError, d)
              end
        | None => Refuse KeyError
        end
      else Refuse TypeError
  end.

(** What each call is to announce and to leave behind, written out for a
    list of items with distinct keys instead of with the builtins above:
    [None] when the call announces nothing; otherwise the event and the
    items the call leaves.  A deleted key leaves the other items in their
    order, a new key goes last, a present key keeps its place. *)
Definition change (o : op) (d : items) : option (event * option items) :=
  match o with
  | Clear => Some (Event CLEAR VNone VNone VNone, Some [])
  | Pop k _ | DelItem k =>
      if hashable k then
        old ← dict_lookup k d;
        Some (Event DELETE k old VNone,
              Some (List.filter (λ kv, negb (py_same kv.1 k)) d))
      else None
  | PopItem =>
      kv ← last d;
      Some (Event DELETE kv.1 kv.2 VNone, Some (take (length d - 1) d))
  | SetItem k v =>
      if hashable k then
        match dict_lookup k d with
        | Some old =>
            if py_eq old v then None
            else Some (Event MODIFY k old v,
                       Some ((λ kv, if py_same kv.1 k then (kv.1, v) else kv) <$> d))
        | None => Some (Event CREATE k VNone v, Some (d ++ [(k, v)]))
        end
      else None
  end.

(** The item assignments [update] makes, in order. *)
Definition writes (data : data) (kvargs : list (string * value)) : list (value * value) :=
  if falsy data then []
  else
    match data with
    | DataNone => []
    | DataDict d => omap (λ k, (k,.) <$> dict_lookup k d) d.*1
    | DataPairs pairs =>
        pairs ++ omap (λ k, (VStr k,.) <$> kwargs_lookup k kvargs) kvargs.*1
    end.

(** The changes a sequence of item assignments announces: one per
    assignment that creates a key or gives a key a different value. *)
Fixpoint announcements (d : items) (ws : list (value * value)) : list event :=
  match ws with
  | [] => []
  | (k, v) :: rest =>
      match dict_lookup k d with
      | None => Event CREATE k VNone v :: announcements (dict_setitem k v d) rest
      | Some old =>
          if py_eq old v then announcements d rest
          else Event MODIFY k old v :: announcements (dict_setitem k v d) rest
      end
  end.

End ObservableDict.

(** ** ObservableObject.py *)

Module ObservableObject.
Import Container.

Definition CREATE : string := "create".
Definition MODIFY : string := "modify".
Definition DELETE : string := "delete".

(** The attributes of the instance.  The two observer lists, which
    [Observable.__init__] stores in the instance dictionary under
    [_beforeObserverList] and [_afterObserverList], are the [observable]
    component of the world; the storage is the rest of the instance
    dictionary, empty in a new object. *)
Abbreviation world := (Container.world (gmap string value)).

Definition observer_lists : list string :=
  ["_beforeObserverList"; "_afterObserverList"].

(** The names under which attribute access is not a plain access to the
    storage: the observer lists, and the data descriptors [__class__],
    [__dict__] and [__weakref__] that every instance has from its class. *)
Definition reserved (key : string) : bool :=
  bool_decide (key ∈ observer_lists ++ ["__class__"; "__dict__"; "__weakref__"]).

(** What the class and its base contribute to attribute lookup under a
    name that does not start with an underscore: the three operation
    constants and the four registration methods. *)
Definition class_attribute (name : string) : option value :=
  if decide (name = "CREATE") then Some (VStr CREATE)
  else if decide (name = "MODIFY") then Some (VStr MODIFY)
  else if decide (name = "DELETE") then Some (VStr DELETE)
  else if decide (name ∈ ["add_before_observer"; "add_after_observer";
                          "remove_before_observer"; "remove_after_observer"])
  then Some (VMethod name)
  else None.

(** The value of the universe that [getattr(self, key)] finds, [None]
    when there is none.  What it finds under a reserved name (an observer
    list, a class, a dictionary) is no value of the universe. *)
Definition lookup_attribute (key : string) (attrs : gmap string value) : option value :=
  if reserved key then None
  else
    match attrs !! key with
    | Some v => Some v
    | None => class_attribute key
    end.

Definition hasattr (key : string) : M world bool :=
  if reserved key then stop Unsupported
  else do attrs <- read; ret (bool_decide (is_Some (lookup_attribute key attrs))).

(** [getattr(self, key)] without a default. *)
Definition getattr (key : string) : M world value :=
  if reserved key then stop Unsupported
  else do attrs <- read; expect AttributeError (lookup_attribute key attrs).

(** [object.__setattr__].  [__class__] accepts a class and [__dict__] a
    dictionary only, and the universe has neither; [__weakref__] cannot be
    written.  Under the name of an observer list the list itself is
    replaced by the value, where the embedding does not follow. *)
Definition object___setattr__ (key : string) (value : value) : M world unit :=
  if decide (key ∈ ["__class__"; "__dict__"]) then raise TypeError
  else if decide (key = "__weakref__") then raise AttributeError
  else if decide (key ∈ observer_lists) then stop Unsupported
  else do attrs <- read; write (<[key := value]> attrs).

(** [object.__delattr__].  [__class__] cannot be deleted, nor can
    [__weakref__]; deleting an observer list, or with [__dict__] all
    attributes and the observer lists among them, is where the embedding
    does not follow. *)
Definition object___delattr__ (key : string) : M world unit :=
  if decide (key = "__class__") then raise TypeError
  else if decide (key = "__weakref__") then raise AttributeError
  else if decide (key ∈ "__dict__" :: observer_lists) then stop Unsupported
  else
    do attrs <- read;
    match attrs !! key with
    | Some _ => write (delete key attrs)
    | None => raise AttributeError
    end.

Definition startswith (prefix key : string) : bool := String.prefix prefix key.

Definition __init__ : world :=
  {| storage := ∅; observable := Observable.__init__; trace := [] |}.

Definition __setattr__ (key : string) (value : value) : M world unit :=
  if startswith "_" key then object___setattr__ key value
  else
    do exists_ <- hasattr key;
    let operation := if exists_ : bool then MODIFY else CREATE in
    do old_value <- (if exists_ then getattr key else ret VNone);
    if py_eq old_value value && bool_decide (operation = MODIFY) then ret tt
    else
      _call_before_observers (Event operation (VStr key) old_value value) ;;
      object___setattr__ key value ;;
      _call_after_observers (Event operation (VStr key) old_value value).

Definition __delattr__ (key : string) : M world unit :=
  if startswith "_" key then object___delattr__ key
  else
    do old_value <- getattr key;
    _call_before_observers (Event DELETE (VStr key) old_value VNone) ;;
    object___delattr__ key ;;
    _call_after_observers (Event DELETE (VStr key) old_value VNone).

(** The mutating statements on an instance. *)
Inductive op : Type :=
  | SetAttr (key : string) (value : value)
  | DelAttr (key : string).

Definition exec (o : op) : M world unit :=
  match o with
  | SetAttr k v => __setattr__ k v
  | DelAttr k => __delattr__ k
  end.

(** Each statement as a step from the attributes it finds. *)
Definition plan (o : op) (attrs : gmap string value) : step (gmap string value) unit :=
  match o with
  | SetAttr k v =>
      if startswith "_" k then
        if decide (k ∈ ["__class__"; "__dict__"]) then Refuse TypeError
        else if decide (k = "__weakref__") then Refuse AttributeError
        else if decide (k ∈ observer_lists) then Stop Unsupported
        else Quiet (<[k := v]> attrs) tt
      else
        match lookup_attribute k attrs with
        | Some old =>
            if py_eq old v then Skip tt
            else Fire (Event MODIFY (VStr k) old v) (Ok tt, <[k := v]> attrs)
        | None => Fire (Event CREATE (VStr k) VNone v) (Ok tt, <[k := v]> attrs)
        end
  | DelAttr k =>
      if startswith "_" k then
        if decide (k = "__class__") then Refuse TypeError
        else if decide (k = "__weakref__") then Refuse AttributeError
        else if decide (k ∈ "__dict__" :: observer_lists) then Stop Unsupported
        else
          match attrs !! k with
          | Some _ => Quiet (delete k attrs) tt
          | None => Refuse AttributeError
          end
      else
        match lookup_attribute k attrs with
        | Some old =>
            Fire (Event DELETE (VStr k) old VNone)
              match attrs !! k with
              | Some _ => (Ok tt, delete k attrs)
              | None => (Raised AttributeError, attrs)
              end
        | None => Refuse AttributeError
        end
  end.

(** What each statement is to announce and to leave behind: [None] when
    it announces nothing, which is the case of every name that starts
    with an underscore and of an assignment of the value the attribute
    already has; otherwise the event and the attributes the statement
    leaves. *)
Definition change (o : op) (attrs : gmap string value)
    : option (event * option (gmap string value)) :=
  match o with
  | SetAttr k v =>
      if startswith "_" k then None
      else
        match lookup_attribute k attrs with
        | Some old =>
            if py_eq old v then None
            else Some (Event MODIFY (VStr k) old v, Some (<[k := v]> attrs))
        | None => Some (Event CREATE (VStr k) VNone v, Some (<[k := v]> attrs))
        end
  | DelAttr k =>
      if startswith "_" k then None
      else
        old ← lookup_attribute k attrs;
        Some (Event DELETE (VStr k) old VNone,
              (λ _, delete k attrs) <$> attrs !! k)
  end.

End ObservableObject.


(** * Properties *)

(** ** Equality of values *)


Lemma py_same_refl (v : value) : py_same v v = true.
Proof.
  induction v as [| | |xs IH| | |] using value_ind; simpl; try reflexivity;
    try (apply bool_decide_eq_true; reflexivity).
  induction IH as [|x xs Hx _ IH]; [reflexivity|].
  rewrite Hx. exact IH.
Qed.

Lemma py_same_sound (a b : value) : py_same a b = true → a = b.
Proof.
  revert b. induction a as [| | |xs IH| | |] using value_ind; intros [] Heq;
    simpl in Heq; try discriminate; try reflexivity;
    try (apply bool_decide_eq_true in Heq; congruence).
  f_equal. revert elems Heq.
  induction IH as [|x xs Hx _ IH]; intros [|y ys] Heq; try discriminate;
    [reflexivity|].
  apply andb_true_iff in Heq as [H1 H2].
  f_equal; [apply Hx, H1 | apply IH, H2].
Qed.

Lemma py_same_true (a b : value) : py_same a b = true ↔ a = b.
Proof. split; [apply py_same_sound | intros ->; apply py_same_refl]. Qed.

Lemma py_same_false (a b : value) : py_same a b = false ↔ a ≠ b.
Proof.
  rewrite <- py_same_true. destruct (py_same a b); split; congruence.
Qed.

(** Equal values are the same value. *)
Lemma py_eq_sound (a b : value) : py_eq a b = true → a = b.
Proof.
  unfold py_eq. destruct a; try apply py_same_sound. discriminate.
Qed.


(** Nothing is equal to a [nan]. *)
Lemma py_eq_nan (a : value) (i : nat) : py_eq a (VNaN i) = false.
Proof.
  destruct (py_eq a (VNaN i)) eqn:E; [|reflexivity].
  pose proof (py_eq_sound _ _ E) as ->. discriminate E.
Qed.

(** A value equal to itself is equal to every value it is. *)
Lemma py_eq_self (a v : value) : py_eq v v = true → a = v → py_eq a v = true.
Proof. intros Hv ->. exact Hv. Qed.

(** Every value but a [nan] is equal to itself. *)
Lemma py_eq_refl (v : value) : (∀ i, v ≠ VNaN i) → py_eq v v = true.
Proof.
  intros Hv. unfold py_eq. destruct v; try apply py_same_refl.
  destruct (Hv id). reflexivity.
Qed.

(** ** Dispatch in a container *)

Import Container.

Section ContainerFacts.
Context {T : Type}.
Implicit Types (w : world T) (ev : event).

Lemma reached_recorders (observers : list callback) :
  Forall is_recorder observers → reached observers = (observers, None).
Proof.
  induction 1 as [|cb rest Hcb _ IH]; [reflexivity|].
  destruct cb; try contradiction. simpl. rewrite IH. reflexivity.
Qed.



(** A dispatch calls the observers in order up to the first that raises,
    and touches neither the storage nor the observer lists. *)
Lemma call_each_spec (observers : list callback) ev w :
  Observable.call_each call observers ev w =
  (match (reached observers).2 with None => Ok tt | Some e => Raised e end,
   {| storage := storage w; observable := observable w;
      trace := trace w ++ calls (reached observers).1 ev |}).
Proof.
  revert w. induction observers as [|cb rest IH]; intros [s o t]; simpl.
  - unfold ret. rewrite app_nil_r. reflexivity.
  - unfold and_then at 1. unfold call, and_then, log, modify, ret, raise. simpl.
    destruct cb as [id|id e|id r|id r z]; simpl.
    + rewrite IH. simpl. rewrite <- app_assoc. reflexivity.
    + reflexivity.
    + reflexivity.
    + reflexivity.
Qed.

Lemma before_spec ev w :
  _call_before_observers ev w =
  (match (reached (Observable._beforeObserverList (observable w))).2 with
   | None => Ok tt | Some e => Raised e end,
   {| storage := storage w; observable := observable w;
      trace := trace w ++
        calls (reached (Observable._beforeObserverList (observable w))).1 ev |}).
Proof. unfold _call_before_observers, and_then, gets. apply call_each_spec. Qed.

Lemma after_spec ev w :
  _call_after_observers ev w =
  (match (reached (Observable._afterObserverList (observable w))).2 with
   | None => Ok tt | Some e => Raised e end,
   {| storage := storage w; observable := observable w;
      trace := trace w ++
        calls (reached (Observable._afterObserverList (observable w))).1 ev |}).
Proof. unfold _call_after_observers, and_then, gets. apply call_each_spec. Qed.

End ContainerFacts.

(** ** Steps *)

Section StepFacts.
Context {T R : Type}.
Implicit Types (w : world T) (ev : event) (s : step T R).

(** What a step that announces [ev] does, whoever observes. *)
Lemma run_fire ev (m : outcome R * T) w :
  let B := reached (Observable._beforeObserverList (observable w)) in
  let A := reached (Observable._afterObserverList (observable w)) in
  run (Fire ev m) w =
  match B.2 with
  | Some e =>
      (Raised e, {| storage := storage w; observable := observable w;
                    trace := trace w ++ calls B.1 ev |})
  | None =>
      match m.1 with
      | Ok r =>
          (match A.2 with None => Ok r | Some e => Raised e end,
           {| storage := m.2; observable := observable w;
              trace := trace w ++ calls B.1 ev ++ calls A.1 ev |})
      | Raised e =>
          (Raised e, {| storage := m.2; observable := observable w;
                        trace := trace w ++ calls B.1 ev |})
      | Fault f =>
          (Fault f, {| storage := m.2; observable := observable w;
                       trace := trace w ++ calls B.1 ev |})
      end
  end.
Proof.
  intros B A. unfold run. unfold and_then at 1. rewrite before_spec. fold B.
  destruct (B.2); [reflexivity|].
  unfold and_then at 1. simpl. destruct m as [[r|e|f] t]; simpl; try reflexivity.
  unfold and_then at 1. rewrite after_spec. simpl. fold A.
  rewrite <- app_assoc. destruct (A.2); reflexivity.
Qed.


(** With observers that all return, a step whose builtin succeeds returns. *)
Lemma run_recorders ev (r : R) (t : T) w :
  Forall is_recorder (Observable._beforeObserverList (observable w)) →
  Forall is_recorder (Observable._afterObserverList (observable w)) →
  run (Fire ev (Ok r, t)) w =
  (Ok r, {| storage := t; observable := observable w;
            trace := trace w ++ pair_of_calls (observable w) ev |}).
Proof.
  intros HB HA. rewrite run_fire. simpl.
  rewrite (reached_recorders _ HB), (reached_recorders _ HA). reflexivity.
Qed.




End StepFacts.

(** Unfolds a method and a step side by side; [cases] splits on one
    builtin of the container at a time. *)
Ltac step_solve B A cases :=
  let HB := fresh "HB" in
  let HA := fresh "HA" in
  destruct (reached B) as [? [?|]] eqn:HB;
  destruct (reached A) as [? [?|]] eqn:HA;
  unfold run, and_then, ret, raise, read, write, expect, gets, modify; simpl;
  repeat (first
    [ rewrite before_spec
    | rewrite after_spec
    | rewrite andb_false_r
    | rewrite andb_true_r
    | match goal with
      | H : ?x = _ |- context [?x] => rewrite H
      end
    | progress simpl
    | cases ]);
  rewrite <- ?app_assoc; try reflexivity.

(** ** ObservableList: every method is a step *)

Section ListFacts.
Import ObservableList.
Variable list_sort : value → value → M (list value) unit.
Implicit Types (w : world) (o : op).

Ltac list_case :=
  idtac; match goal with
  | |- context [list_insert ?i ?v ?l] => destruct (list_insert i v l) eqn:?
  | |- context [decide ?P] => destruct (decide P)
  | |- context [list_getitem ?i ?l] => destruct (list_getitem i l) eqn:?
  | |- context [list_setitem ?i ?v ?l] => destruct (list_setitem i v l) eqn:?
  | |- context [list_pop ?i ?l] => destruct (list_pop i l) as [[? ?]|] eqn:?
  | |- context [list_index ?v ?l] => destruct (list_index v l) eqn:?
  | |- context [list_remove ?f ?v ?l] => destruct (list_remove f v l) eqn:?
  | |- context [iterate ?v] => destruct (iterate v) eqn:?
  | |- context [py_eq ?a ?b] => destruct (py_eq a b) eqn:?
  | |- context [list_sort ?k ?r ?l] => destruct (list_sort k r l) as [[[]|?|?] ?] eqn:?
  end.

Lemma list_exec_plan o w : exec list_sort o w = run (plan list_sort o (storage w)) w.
Proof.
  destruct w as [l [B A] t].
  destruct o; simpl storage; unfold exec, plan;
    unfold append, clear, extend, insert, pop, remove, reverse, sort,
      __setitem__, __delitem__, dict___delitem__;
    step_solve B A list_case.
Qed.

End ListFacts.

(** ** ObservableDict: every method but [update] is a step *)

Section DictFacts.
Import ObservableDict.
Implicit Types (w : world) (o : op) (d : items).

Lemma dict_lookup_delitem (k : value) d :
  is_Some (dict_lookup k d) ↔ is_Some (dict_delitem k d).
Proof.
  induction d as [|[k' v'] d IH]; simpl.
  - split; intros [? ?]; discriminate.
  - destruct (py_same k' k); [split; eauto|].
    rewrite IH. split; intros [x Hx]; [rewrite Hx; eauto|].
    destruct (dict_delitem k d); [eauto|discriminate].
Qed.

Ltac dict_case :=
  idtac; match goal with
  | |- context [hashable ?k] => destruct (hashable k) eqn:?
  | |- context [dict_lookup ?k ?d] => destruct (dict_lookup k d) eqn:?
  | |- context [dict_delitem ?k ?d] => destruct (dict_delitem k d) eqn:?
  | |- context [dict_popitem ?d] => destruct (dict_popitem d) as [[[? ?] ?]|] eqn:?
  | |- context [last ?d] => destruct (last d) as [[? ?]|] eqn:?
  | |- context [py_eq ?a ?b] => destruct (py_eq a b) eqn:?
  end.

Lemma dict_exec_plan o w : exec o w = run (plan o (storage w)) w.
Proof.
  destruct w as [d [B A] t].
  destruct o; simpl storage; unfold exec, plan;
    unfold clear, pop, popitem, __setitem__, __delitem__, __getitem__,
      __contains__, dict_pop;
    step_solve B A dict_case.
Qed.

(** [__setitem__] is the step of [SetItem] without its result. *)
Lemma setitem_run (k v : value) w :
  __setitem__ k v w =
  ((match (run (plan (SetItem k v) (storage w)) w).1 with
    | Ok _ => Ok tt
    | Raised e => Raised e
    | Fault f => Fault f
    end), (run (plan (SetItem k v) (storage w)) w).2).
Proof.
  rewrite <- dict_exec_plan. unfold exec, and_then, ret.
  destruct (__setitem__ k v w) as [[[]|e|f] w1]; reflexivity.
Qed.

Lemma for_each_app {A} (xs ys : list A) (body : A → M world unit) w :
  for_each (xs ++ ys) body w = (for_each xs body ;; for_each ys body) w.
Proof.
  revert w. induction xs as [|x xs IH]; intros w; simpl.
  - reflexivity.
  - unfold and_then. destruct (body x w) as [[[]|e|f] w1]; try reflexivity.
    rewrite IH. reflexivity.
Qed.

Lemma for_each_lookup {K} (get : K → option value) (key : K → value)
    (ks : list K) w :
  Forall (λ k, is_Some (get k)) ks →
  for_each ks (λ k, do v <- expect KeyError (get k); __setitem__ (key k) v) w =
  for_each (omap (λ k, (key k,.) <$> get k) ks) (λ kv, __setitem__ kv.1 kv.2) w.
Proof.
  intros Hks. revert w. induction Hks as [|k ks [v Hv] _ IH]; intros w; simpl.
  - reflexivity.
  - rewrite Hv. simpl. unfold and_then, ret. simpl.
    destruct (__setitem__ (key k) v w) as [[[]|e|f] w1]; try reflexivity.
    apply IH.
Qed.

Lemma dict_lookup_keys d : Forall (λ k, is_Some (dict_lookup k d)) d.*1.
Proof.
  apply Forall_forall. intros k Hk.
  induction d as [|[k' v'] d IH]; simpl in *.
  - apply elem_of_nil in Hk as [].
  - destruct (py_same k' k) eqn:E; [eauto|].
    apply elem_of_cons in Hk as [->|Hk]; [|auto].
    rewrite py_same_refl in E. discriminate.
Qed.

Lemma kwargs_lookup_keys (kvargs : list (string * value)) :
  Forall (λ k, is_Some (kwargs_lookup k kvargs)) kvargs.*1.
Proof.
  apply Forall_forall. intros k Hk.
  induction kvargs as [|[k' v'] kvargs IH]; simpl in *.
  - apply elem_of_nil in Hk as [].
  - destruct (decide (k' = k)); [eauto|].
    apply elem_of_cons in Hk as [->|Hk]; [congruence|auto].
Qed.

(** [update] is the sequence of its item assignments. *)
Lemma update_writes (data : data) (kvargs : list (string * value)) w :
  update data kvargs w =
  for_each (writes data kvargs) (λ kv, __setitem__ kv.1 kv.2) w.
Proof.
  unfold update, writes. destruct (falsy data) eqn:F; [reflexivity|].
  destruct data as [|d|pairs]; [reflexivity| |].
  - apply (for_each_lookup (λ k, dict_lookup k d) id), dict_lookup_keys.
  - rewrite for_each_app. unfold and_then.
    destruct (for_each pairs _ w) as [[[]|e|f] w1]; try reflexivity.
    apply (for_each_lookup (λ k, kwargs_lookup k kvargs) VStr), kwargs_lookup_keys.
Qed.


End DictFacts.

(** ** ObservableObject: every statement is a step *)

Section ObjectFacts.
Import ObservableObject.
Implicit Types (w : world) (o : op) (attrs : gmap string value).

Lemma reserved_false (key : string) :
  reserved key = false →
  (key ∉ ["__class__"; "__dict__"]) ∧ (key ≠ "__weakref__") ∧
  (key ∉ observer_lists) ∧ (key ≠ "__class__") ∧
  (key ∉ "__dict__" :: observer_lists).
Proof.
  intros H. apply bool_decide_eq_false in H.
  unfold observer_lists in *. simpl in H.
  rewrite !elem_of_cons, elem_of_nil in H.
  repeat split; rewrite ?elem_of_cons, ?elem_of_nil; tauto.
Qed.

(** A name that does not start with an underscore is not reserved. *)
Lemma public_plain (key : string) :
  startswith "_" key = false →
  reserved key = false ∧
  (key ∉ ["__class__"; "__dict__"]) ∧ (key ≠ "__weakref__") ∧
  (key ∉ observer_lists) ∧ (key ≠ "__class__") ∧
  (key ∉ "__dict__" :: observer_lists).
Proof.
  intros Hp.
  assert (H : reserved key = false).
  { apply bool_decide_eq_false. intros Hin. unfold observer_lists in Hin.
    simpl in Hin.
    repeat (apply elem_of_cons in Hin as [->|Hin]; [discriminate Hp|]).
    apply elem_of_nil in Hin as []. }
  split; [exact H|]. apply reserved_false, H.
Qed.

(** An assignment under a name that is not reserved is a plain store. *)
Lemma object_setattr_plain (key : string) (v : value) w :
  reserved key = false →
  object___setattr__ key v w =
  (Ok tt, {| storage := <[key := v]> (storage w); observable := observable w;
             trace := trace w |}).
Proof.
  intros H. destruct (reserved_false key H) as (H1 & H2 & H3 & _).
  unfold object___setattr__.
  rewrite (decide_False (P := key ∈ ["__class__"; "__dict__"])) by exact H1.
  rewrite (decide_False (P := key = "__weakref__")) by exact H2.
  rewrite (decide_False (P := key ∈ observer_lists)) by exact H3.
  reflexivity.
Qed.

Lemma object_delattr_plain (key : string) w :
  reserved key = false →
  object___delattr__ key w =
  match storage w !! key with
  | Some _ => (Ok tt, {| storage := delete key (storage w);
                         observable := observable w; trace := trace w |})
  | None => (Raised AttributeError, w)
  end.
Proof.
  intros H. destruct (reserved_false key H) as (_ & H2 & _ & H4 & H5).
  unfold object___delattr__.
  rewrite (decide_False (P := key = "__class__")) by exact H4.
  rewrite (decide_False (P := key = "__weakref__")) by exact H2.
  rewrite (decide_False (P := key ∈ ("__dict__" :: observer_lists))) by exact H5.
  unfold and_then, read, gets. simpl. destruct (storage w !! key); reflexivity.
Qed.

Ltac object_case :=
  idtac; match goal with
  | |- context [lookup_attribute ?k ?m] => destruct (lookup_attribute k m) eqn:?
  | |- context [@lookup _ _ (gmap string value) _ ?k ?m] => destruct (m !! k) eqn:?
  | |- context [py_eq ?a ?b] => destruct (py_eq a b) eqn:?
  end.

Lemma object_exec_plan o w : exec o w = run (plan o (storage w)) w.
Proof.
  destruct w as [attrs [B A] t].
  destruct o as [k v|k]; simpl storage; unfold exec, plan, __setattr__, __delattr__;
    destruct (startswith "_" k) eqn:Hp.
  - unfold object___setattr__. repeat destruct (decide _); reflexivity.
  - destruct (public_plain k Hp) as (Hr & H1 & H2 & H3 & _).
    unfold hasattr, getattr, object___setattr__. rewrite Hr.
    rewrite (decide_False (P := k ∈ ["__class__"; "__dict__"])) by exact H1.
    rewrite (decide_False (P := k = "__weakref__")) by exact H2.
    rewrite (decide_False (P := k ∈ observer_lists)) by exact H3.
    step_solve B A object_case.
  - unfold object___delattr__. repeat destruct (decide _); try reflexivity.
    unfold and_then, read, gets, run, raise, write, modify, ret. simpl.
    destruct (attrs !! k); reflexivity.
  - destruct (public_plain k Hp) as (Hr & _ & H2 & _ & H4 & H5).
    unfold getattr, object___delattr__. rewrite Hr.
    rewrite (decide_False (P := k = "__class__")) by exact H4.
    rewrite (decide_False (P := k = "__weakref__")) by exact H2.
    rewrite (decide_False (P := k ∈ ("__dict__" :: observer_lists))) by exact H5.
    step_solve B A object_case.
Qed.

End ObjectFacts.

(** ** ObservableList: deletion by index *)

(** C3, as the code behaves: [del l[i]] at a valid index calls the
    before-observers with [(DELETE, i, l[i], None)] and then raises
    [TypeError] from [dict.__delitem__]; the element is not removed and
    no after-observer is called. *)
Theorem list_delitem_raises_type_error
    (w : ObservableList.world) (index : Z) (old : value) :
  ObservableList.list_getitem index (storage w) = Some old →
  Forall is_recorder (Observable._beforeObserverList (observable w)) →
  ObservableList.__delitem__ index w =
  (Raised TypeError,
   {| storage := storage w; observable := observable w;
      trace := trace w ++
        calls (Observable._beforeObserverList (observable w))
          (Event ObservableList.DELETE (VInt index) old VNone) |}).
Proof.
  intros Hget HB. destruct w as [l [B A] t]. simpl in *.
  unfold ObservableList.__delitem__, ObservableList.dict___delitem__.
  unfold and_then, read, gets, expect. simpl. rewrite Hget. unfold ret.
  rewrite before_spec. simpl. rewrite (reached_recorders _ HB). reflexivity.
Qed.

Lemma list_delitem_raises_type_error_witness :
  ObservableList.__delitem__ 0
    {| storage := [VInt 1; VInt 2; VInt 3];
       observable := Observable.Make [Recorder 0] [Recorder 1];
       trace := [] |} =
  (Raised TypeError,
   {| storage := [VInt 1; VInt 2; VInt 3];
      observable := Observable.Make [Recorder 0] [Recorder 1];
      trace := [(Recorder 0, Event "delete" (VInt 0) (VInt 1) VNone)] |}).
Proof.
  apply (list_delitem_raises_type_error
           {| storage := [VInt 1; VInt 2; VInt 3];
              observable := Observable.Make [Recorder 0] [Recorder 1];
              trace := [] |} 0 (VInt 1)).
  - reflexivity.
  - repeat constructor.
Defined.

(** ** ObservableDict: pop *)

(** C7.  [pop(key, default)] on a present key announces one DELETE to the
    before-observers, removes the item, announces the DELETE to the
    after-observers and returns the stored value, which is what the
    builtin [dict.pop(key, default)] returns; on an absent key it raises
    [KeyError] from the lookup, with nothing announced and nothing
    changed. *)
Theorem dict_pop_present_or_absent
    (w : ObservableDict.world) (key default : value) :
  hashable key = true →
  (∀ old,
     ObservableDict.dict_lookup key (storage w) = Some old →
     Forall is_recorder (Observable._beforeObserverList (observable w)) →
     Forall is_recorder (Observable._afterObserverList (observable w)) →
     ∃ d',
       ObservableDict.dict_delitem key (storage w) = Some d' ∧
       ObservableDict.dict_pop key default (storage w) = (old, d') ∧
       ObservableDict.pop key default w =
       (Ok old,
        {| storage := d'; observable := observable w;
           trace := trace w ++
             pair_of_calls (observable w)
               (Event ObservableDict.DELETE key old VNone) |})) ∧
  (ObservableDict.dict_lookup key (storage w) = None →
   ObservableDict.pop key default w = (Raised KeyError, w)).
Proof.
  intros Hk. split.
  - intros old Hl HB HA.
    destruct (dict_lookup_delitem key (storage w)) as [Hd _].
    destruct (Hd (ex_intro _ old Hl)) as [d' Hd'].
    exists d'. split; [exact Hd'|].
    assert (Hpop : ObservableDict.dict_pop key default (storage w) = (old, d')).
    { unfold ObservableDict.dict_pop. rewrite Hl, Hd'. reflexivity. }
    split; [exact Hpop|].
    pose proof (dict_exec_plan (ObservableDict.Pop key default) w) as He.
    unfold ObservableDict.exec, ObservableDict.plan in He.
    rewrite Hk, Hl, Hpop in He. rewrite run_recorders in He by assumption.
    unfold and_then, ret in He.
    destruct (ObservableDict.pop key default w) as [[r|e|f] w1];
      simpl in He; congruence.
  - intros Hl. destruct w as [d o t]. simpl in Hl.
    unfold ObservableDict.pop, ObservableDict.__getitem__.
    rewrite Hk. unfold and_then, read, gets, expect. simpl. rewrite Hl. reflexivity.
Qed.

Lemma dict_pop_present_or_absent_witness :
  ObservableDict.pop (VStr "a") VNone
    {| storage := [(VStr "a", VInt 1)];
       observable := Observable.Make [Recorder 0] [Recorder 1];
       trace := [] |} =
  (Ok (VInt 1),
   {| storage := [];
      observable := Observable.Make [Recorder 0] [Recorder 1];
      trace := [(Recorder 0, Event "delete" (VStr "a") (VInt 1) VNone);
                (Recorder 1, Event "delete" (VStr "a") (VInt 1) VNone)] |}) ∧
  ObservableDict.pop (VStr "b") (VInt 7)
    {| storage := [(VStr "a", VInt 1)];
       observable := Observable.Make [Recorder 0] [Recorder 1];
       trace := [] |} =
  (Raised KeyError,
   {| storage := [(VStr "a", VInt 1)];
      observable := Observable.Make [Recorder 0] [Recorder 1];
      trace := [] |}).
Proof.
  split.
  - destruct (proj1 (dict_pop_present_or_absent
        {| storage := [(VStr "a", VInt 1)];
           observable := Observable.Make [Recorder 0] [Recorder 1];
           trace := [] |} (VStr "a") VNone eq_refl) (VInt 1) eq_refl)
      as (d' & Hd & _ & Hpop).
    + repeat constructor.
    + repeat constructor.
    + injection Hd as <-. exact Hpop.
  - apply (proj2 (dict_pop_present_or_absent
        {| storage := [(VStr "a", VInt 1)];
           observable := Observable.Make [Recorder 0] [Recorder 1];
           trace := [] |} (VStr "b") (VInt 7) eq_refl)).
    reflexivity.
Defined.

(** ** ObservableDict and ObservableObject: CREATE and MODIFY *)




(** ** ObservableDict: update *)

(** C2, as the code behaves: [update({"a": 1}, b=2)] on an empty
    dictionary stores and announces ["a"] only; the keyword argument is
    neither stored nor announced, because the branch for a [dict] returns
    before the loop over the keyword arguments. *)
Theorem update_with_dict_ignores_kwargs :
  ObservableDict.update (ObservableDict.DataDict [(VStr "a", VInt 1)])
    [("b", VInt 2)]
    {| storage := [];
       observable := Observable.Make [Recorder 0] [Recorder 1];
       trace := [] |} =
  (Ok tt,
   {| storage := [(VStr "a", VInt 1)];
      observable := Observable.Make [Recorder 0] [Recorder 1];
      trace := [(Recorder 0, Event "create" (VStr "a") VNone (VInt 1));
                (Recorder 1, Event "create" (VStr "a") VNone (VInt 1))] |}).
Proof. reflexivity. Qed.

(** The same holds of every non-empty dictionary passed as [data]:
    [update] does what it does without the keyword arguments. *)
Lemma update_dict_kwargs_unused
    (kv : value * value) (d : ObservableDict.items)
    (kvargs : list (string * value)) (w : ObservableDict.world) :
  ObservableDict.update (ObservableDict.DataDict (kv :: d)) kvargs w =
  ObservableDict.update (ObservableDict.DataDict (kv :: d)) [] w.
Proof. reflexivity. Qed.

(** The sibling branch, for a sequence of pairs, does reach them. *)
Example update_with_pairs_stores_kwargs :
  ObservableDict.update (ObservableDict.DataPairs [(VStr "a", VInt 1)])
    [("b", VInt 2)]
    {| storage := [];
       observable := Observable.Make [Recorder 0] [Recorder 1];
       trace := [] |} =
  (Ok tt,
   {| storage := [(VStr "a", VInt 1); (VStr "b", VInt 2)];
      observable := Observable.Make [Recorder 0] [Recorder 1];
      trace := [(Recorder 0, Event "create" (VStr "a") VNone (VInt 1));
                (Recorder 1, Event "create" (VStr "a") VNone (VInt 1));
                (Recorder 0, Event "create" (VStr "b") VNone (VInt 2));
                (Recorder 1, Event "create" (VStr "b") VNone (VInt 2))] |}).
Proof. reflexivity. Qed.

(** ** ObservableValue: dispatch *)

Section ValueFacts.
Import ObservableValue.
Implicit Types (w : world) (a : args) (self : ref).
Variable set_ : ref → value → M world unit.


Lemma logged_nil a w : logged [] a w = w.
Proof. destruct w. unfold logged. simpl. rewrite app_nil_r. reflexivity. Qed.


Lemma value_call_each_recorders (observers : list callback) a w :
  Forall is_recorder observers →
  Observable.call_each (call set_) observers a w = (Ok tt, logged observers a w).
Proof.
  intros H. revert w. induction H as [|cb rest Hcb _ IH]; intros w; simpl.
  - unfold ret. rewrite logged_nil. reflexivity.
  - destruct cb; try contradiction.
    unfold and_then, call, and_then, log, modify, ret. simpl. rewrite IH.
    unfold logged. simpl. rewrite <- app_assoc. reflexivity.
Qed.





End ValueFacts.

Section SetFacts.
Import ObservableValue.
Implicit Types (w : world) (a : args) (self : ref) (o : t).

Lemma set_noop (fuel : nat) self (v : value) w o :
  heap w !! self = Some o → py_eq (_value o) v = true →
  set (S fuel) self v w = (Ok tt, w).
Proof.
  intros Hl Heq. simpl. unfold and_then, load. rewrite Hl, Heq. reflexivity.
Qed.

(** A [set] that changes the value, with observers that return. *)
Lemma set_recorders (fuel : nat) self (v : value) w o :
  heap w !! self = Some o → py_eq (_value o) v = false →
  Forall is_recorder (Observable._beforeObserverList (observable o)) →
  Forall is_recorder (Observable._afterObserverList (observable o)) →
  set (S fuel) self v w =
  (Ok tt,
   logged (Observable._afterObserverList (observable o)) (Args self (_value o) v)
     (stored self o v
        (logged (Observable._beforeObserverList (observable o))
           (Args self (_value o) v) w))).
Proof.
  intros Hl Heq HB HA. simpl. unfold and_then at 1. unfold load at 1.
  rewrite Hl, Heq.
  unfold and_then at 1. unfold _call_before_observers, and_then, load.
  rewrite Hl, (value_call_each_recorders _ _ _ _ HB).
  unfold store, and_then, load, modify. simpl. rewrite Hl.
  unfold _call_after_observers, and_then, load. simpl.
  rewrite list_lookup_insert_eq by (eapply lookup_lt_Some, Hl). simpl.
  rewrite (value_call_each_recorders _ _ _ _ HA). reflexivity.
Qed.

(** One level of [set] when the value changes. *)
Lemma set_unfold (fuel : nat) self (v : value) w o :
  heap w !! self = Some o → py_eq (_value o) v = false →
  set (S fuel) self v w =
  match Observable.call_each (call (set fuel))
          (Observable._beforeObserverList (observable o))
          (Args self (_value o) v) w with
  | (Ok _, w1) =>
      match heap w1 !! self with
      | Some o1 =>
          Observable.call_each (call (set fuel))
            (Observable._afterObserverList (observable o1))
            (Args self (_value o) v) (stored self o1 v w1)
      | None => (Fault Dangling, w1)
      end
  | (Raised e, w1) => (Raised e, w1)
  | (Fault f, w1) => (Fault f, w1)
  end.
Proof.
  intros Hl Heq. simpl. unfold and_then at 1. unfold load at 1.
  rewrite Hl, Heq.
  unfold and_then at 1. unfold _call_before_observers, and_then, load.
  rewrite Hl.
  destruct (Observable.call_each _ _ _ w) as [[[]|e|f] w1]; try reflexivity.
  unfold store, and_then, load, modify.
  destruct (heap w1 !! self) as [o1|] eqn:Hl1; [|reflexivity].
  unfold _call_after_observers, and_then, load. simpl.
  rewrite list_lookup_insert_eq by (eapply lookup_lt_Some, Hl1). reflexivity.
Qed.

End SetFacts.

(** ** ObservableValue: what a [set] can reach *)

Section Frame.
Import ObservableValue.
Implicit Types (w : world) (a : args) (self : ref) (o : t) (P Q : ref → Prop).

(** Two lists related position by position. *)
Lemma lookup_Forall2 {A} (R : A → A → Prop) (l k : list A) :
  (∀ i, match l !! i with
        | Some x => ∃ y, k !! i = Some y ∧ R x y
        | None => k !! i = None
        end) →
  Forall2 R l k.
Proof.
  intros H. apply Forall2_same_length_lookup_2.
  - destruct (Nat.lt_trichotomy (length k) (length l)) as [Hlt|[Heq|Hgt]];
      [|symmetry; exact Heq|].
    + exfalso. specialize (H (length k)).
      destruct (lookup_lt_is_Some_2 l _ Hlt) as [x Hx].
      rewrite Hx in H. destruct H as (y & Hy & _).
      apply lookup_lt_Some in Hy. lia.
    + exfalso. specialize (H (length l)).
      rewrite (lookup_ge_None_2 l) in H by lia.
      destruct (lookup_lt_is_Some_2 k _ Hgt) as [y Hy]. congruence.
  - intros i x y Hx Hy. specialize (H i). rewrite Hx in H.
    destruct H as (y' & Hy' & HR). congruence.
Qed.

Lemma keeps_refl w : keeps w w.
Proof.
  split; [reflexivity|]. intros r.
  destruct (heap w !! r) as [o|]; [|reflexivity]. exists o. auto.
Qed.

Lemma keeps_trans w (w1 w2 : world) : keeps w w1 → keeps w1 w2 → keeps w w2.
Proof.
  intros (Hid1 & Hheap1) (Hid2 & Hheap2). split; [congruence|].
  intros r. specialize (Hheap1 r). specialize (Hheap2 r).
  destruct (heap w !! r) as [o|].
  - destruct Hheap1 as (o1 & Hl1 & Hobs1 & Hmap1). rewrite Hl1 in Hheap2.
    destruct Hheap2 as (o2 & Hl2 & Hobs2 & Hmap2).
    exists o2. repeat split; [exact Hl2|congruence|congruence].
  - rewrite Hheap1 in Hheap2. exact Hheap2.
Qed.

Lemma keeps_lookup w (w' : world) (r : ref) o :
  keeps w w' → heap w !! r = Some o →
  ∃ o', heap w' !! r = Some o' ∧ observable o' = observable o ∧
        _bindingMap o' = _bindingMap o.
Proof.
  intros (_ & Hheap) Hl. specialize (Hheap r). rewrite Hl in Hheap. exact Hheap.
Qed.

Lemma keeps_stored (v : value) w self o :
  heap w !! self = Some o → keeps w (stored self o v w).
Proof.
  intros Hl. split; [reflexivity|].
  intros r. simpl. destruct (decide (self = r)) as [<-|Hne].
  - rewrite Hl. exists (with_value v o).
    rewrite list_lookup_insert_eq by (eapply lookup_lt_Some, Hl). auto.
  - rewrite list_lookup_insert_ne by exact Hne.
    destruct (heap w !! r) as [o'|]; [|reflexivity]. exists o'. auto.
Qed.

Lemma keeps_heaps w (w' : world) :
  keeps w w' →
  Forall2 (λ o o', observable o' = observable o) (heap w) (heap w').
Proof.
  intros (_ & Hheap). apply lookup_Forall2. intros r. specialize (Hheap r).
  destruct (heap w !! r) as [o|]; [|exact Hheap].
  destruct Hheap as (o' & Hl & Hobs & _). eauto.
Qed.

Lemma keeps_no_setters w (w' : world) :
  keeps w w' → no_setters w → no_setters w'.
Proof.
  intros Hk. apply keeps_heaps in Hk. unfold no_setters.
  induction Hk as [|o o' h h' Hobs _ IH]; [auto|].
  intros Hf. apply Forall_cons in Hf as [Ho Hh].
  apply Forall_cons. split; [rewrite Hobs; exact Ho|auto].
Qed.

Lemma keeps_forwards_after_only w (w' : world) :
  keeps w w' → forwards_after_only w → forwards_after_only w'.
Proof.
  intros Hk. apply keeps_heaps in Hk. unfold forwards_after_only.
  induction Hk as [|o o' h h' Hobs _ IH]; [auto|].
  intros Hf. apply Forall_cons in Hf as [Ho Hh].
  apply Forall_cons. split; [rewrite Hobs; exact Ho|auto].
Qed.

Lemma no_setters_lookup w (r : ref) o :
  no_setters w → heap w !! r = Some o →
  Forall (λ cb, ¬ is_setter cb) (Observable._beforeObserverList (observable o)) ∧
  Forall (λ cb, ¬ is_setter cb) (Observable._afterObserverList (observable o)).
Proof.
  unfold no_setters. rewrite Forall_lookup. intros H Hl. apply (H r o Hl).
Qed.

Lemma and_then_world {A B} (m : M world A) (k : A → M world B) w :
  ((do x <- m; k x) w).2 =
  match m w with
  | (Ok x, w1) => (k x w1).2
  | (_, w1) => w1
  end.
Proof. unfold and_then. destruct (m w) as [[x|e|f] w1]; reflexivity. Qed.

Section DispatchKeeps.
Variable set_ : ref → value → M world unit.
Hypothesis set_keeps : ∀ self (v : value) w, keeps w (set_ self v w).2.

Lemma dispatch_keeps (observers : list callback) a w :
  keeps w (Observable.call_each (call set_) observers a w).2.
Proof.
  revert w. induction observers as [|cb rest IH]; intros w.
  - apply keeps_refl.
  - cbn [Observable.call_each]. rewrite and_then_world.
    assert (Hcall : keeps w (call set_ cb a w).2).
    { unfold call. rewrite and_then_world. unfold log at 1, modify.
      set (w1 := {| heap := heap w |}).
      assert (Hlog : keeps w w1).
      { split; [reflexivity|]. intros r. simpl.
        destruct (heap w !! r) as [o|]; [|reflexivity]. exists o. auto. }
      destruct cb as [id|id e|id target|id target z]; simpl; try exact Hlog.
      - eapply keeps_trans; [exact Hlog|apply set_keeps].
      - eapply keeps_trans; [exact Hlog|apply set_keeps]. }
    destruct (call set_ cb a w) as [[[]|e|f] w2]; try exact Hcall.
    eapply keeps_trans; [exact Hcall|apply IH].
Qed.

End DispatchKeeps.

(** Whatever the observers do, a [set] creates no object and loses none,
    and leaves every observer list and every binding map as it was. *)
Lemma set_keeps (fuel : nat) self (v : value) w :
  keeps w (set fuel self v w).2.
Proof.
  revert self v w. induction fuel as [|fuel IH]; intros self v w.
  - apply keeps_refl.
  - destruct (heap w !! self) as [o|] eqn:Hl.
    2: { simpl. unfold and_then, load. rewrite Hl. apply keeps_refl. }
    destruct (py_eq (_value o) v) eqn:Heq.
    { rewrite (set_noop _ _ _ _ _ Hl Heq). apply keeps_refl. }
    rewrite (set_unfold _ _ _ _ _ Hl Heq).
    pose proof (dispatch_keeps (set fuel) IH
                  (Observable._beforeObserverList (observable o))
                  (Args self (_value o) v) w) as H1.
    destruct (Observable.call_each _ _ _ w) as [[[]|e|f] w1]; simpl in H1;
      try exact H1.
    destruct (keeps_lookup _ _ _ _ H1 Hl) as (o1 & Hl1 & _).
    rewrite Hl1.
    eapply keeps_trans; [exact H1|].
    eapply keeps_trans; [apply (keeps_stored v _ _ _ Hl1)|].
    apply (dispatch_keeps (set fuel) IH).
Qed.

Lemma settles_keeps (v : value) P w (w' : world) : settles v P w w' → keeps w w'.
Proof.
  intros (Hid & Hheap & _). split; [exact Hid|]. intros r. specialize (Hheap r).
  destruct (heap w !! r) as [o|]; [|exact Hheap].
  destruct Hheap as (o' & Hl & Hobs & Hmap & _). eauto.
Qed.

Lemma settles_refl (v : value) P w : settles v P w w.
Proof.
  split; [reflexivity|]. split.
  - intros r. destruct (heap w !! r) as [o|]; [|reflexivity].
    exists o. auto.
  - exists []. rewrite app_nil_r. auto.
Qed.

Lemma settles_weaken (v : value) P Q w (w' : world) :
  (∀ r, P r → Q r) → settles v P w w' → settles v Q w w'.
Proof.
  intros HPQ (Hid & Hheap & t & Htr & Ht). split; [exact Hid|].
  split; [exact Hheap|]. exists t. split; [exact Htr|].
  eapply Forall_impl; [exact Ht|]. intros c. apply HPQ.
Qed.

Lemma settles_trans (v : value) P w (w1 w2 : world) :
  settles v P w w1 → settles v P w1 w2 → settles v P w w2.
Proof.
  intros (Hid1 & Hheap1 & t1 & Htr1 & Ht1) (Hid2 & Hheap2 & t2 & Htr2 & Ht2).
  split; [congruence|]. split.
  - intros r. specialize (Hheap1 r). specialize (Hheap2 r).
    destruct (heap w !! r) as [o|].
    + destruct Hheap1 as (o1 & Hl1 & Hobs1 & Hmap1 & Hv1).
      rewrite Hl1 in Hheap2.
      destruct Hheap2 as (o2 & Hl2 & Hobs2 & Hmap2 & Hv2).
      exists o2. repeat split; [exact Hl2|congruence|congruence|].
      destruct Hv2 as [Hv2|Hv2]; [|auto]. rewrite Hv2. exact Hv1.
    + rewrite Hheap1 in Hheap2. exact Hheap2.
  - exists (t1 ++ t2). split.
    + rewrite Htr2, Htr1, app_assoc. reflexivity.
    + apply Forall_app. auto.
Qed.

(** An object that holds [v] keeps it. *)
Lemma settles_value (v : value) P w (w' : world) (r : ref) :
  settles v P w w' → value_of w r = Some v → value_of w' r = Some v.
Proof.
  intros (_ & Hheap & _). specialize (Hheap r). unfold value_of.
  destruct (heap w !! r) as [o|]; [|discriminate].
  destruct Hheap as (o' & -> & _ & _ & Hv). simpl. intros [= Ho].
  destruct Hv as [Hv|Hv]; congruence.
Qed.

Lemma settles_lookup (v : value) P w (w' : world) (r : ref) o :
  settles v P w w' → heap w !! r = Some o →
  ∃ o', heap w' !! r = Some o' ∧ observable o' = observable o ∧
        _bindingMap o' = _bindingMap o ∧ (_value o' = _value o ∨ _value o' = v).
Proof.
  intros (_ & Hheap & _) Hl. specialize (Hheap r). rewrite Hl in Hheap. exact Hheap.
Qed.

Lemma settles_log (v : value) P w (cb : callback) a :
  P (source a) → settles v P w (log cb a w).2.
Proof.
  intros HP. split; [reflexivity|]. split.
  - intros r. simpl. destruct (heap w !! r) as [o|]; [|reflexivity].
    exists o. auto.
  - exists [(cb, a)]. split; [reflexivity|]. constructor; [exact HP|constructor].
Qed.

Lemma settles_stored (v : value) P w self o :
  heap w !! self = Some o → settles v P w (stored self o v w).
Proof.
  intros Hl. split; [reflexivity|]. split.
  - intros r. simpl. destruct (decide (self = r)) as [<-|Hne].
    + rewrite Hl. exists (with_value v o).
      rewrite list_lookup_insert_eq by (eapply lookup_lt_Some, Hl). auto.
    + rewrite list_lookup_insert_ne by exact Hne.
      destruct (heap w !! r) as [o'|]; [|reflexivity]. exists o'. auto.
  - exists []. simpl. rewrite app_nil_r. auto.
Qed.

Lemma settles_heaps (v : value) P w (w' : world) :
  settles v P w w' →
  Forall2 (λ o o', observable o' = observable o ∧
                   (_value o' = _value o ∨ _value o' = v))
    (heap w) (heap w').
Proof.
  intros (_ & Hheap & _). apply lookup_Forall2. intros r. specialize (Hheap r).
  destruct (heap w !! r) as [o|]; [|exact Hheap].
  destruct Hheap as (o' & Hl & Hobs & _ & Hv). eauto.
Qed.

Section Dispatch.
Variable set_ : ref → value → M world unit.
Hypothesis set_settles :
  ∀ self (v : value) w,
    no_setters w → settles v (changed v w) w (set_ self v w).2.

(** A dispatch of a change of [self] to [v]. *)
Lemma dispatch_settles (observers : list callback) self (old v : value) w :
  no_setters w → Forall (λ cb, ¬ is_setter cb) observers →
  settles v (λ r, r = self ∨ changed v w r) w
    (Observable.call_each (call set_) observers (Args self old v) w).2.
Proof.
  intros Hns Hobs. revert w Hns.
  induction Hobs as [|cb rest Hcb _ IH]; intros w Hns.
  - apply settles_refl.
  - cbn [Observable.call_each]. rewrite and_then_world.
    assert (Hcall : settles v (λ r, r = self ∨ changed v w r) w
              (call set_ cb (Args self old v) w).2).
    { unfold call. rewrite and_then_world. unfold log at 1, modify.
      set (w1 := {| heap := heap w |}).
      assert (Hlog : settles v (λ r, r = self ∨ changed v w r) w w1).
      { apply (settles_log v _ w cb (Args self old v)). left. reflexivity. }
      destruct cb as [id|id e|id target|id target z]; simpl; try exact Hlog.
      - eapply settles_trans; [exact Hlog|].
        eapply settles_weaken; [|apply set_settles; exact Hns].
        intros r Hr. right. exact Hr.
      - destruct Hcb. exact I. }
    destruct (call set_ cb (Args self old v) w) as [[[]|e|f] w2]; try exact Hcall.
    eapply settles_trans; [exact Hcall|].
    eapply settles_weaken; [|apply IH].
    + intros r [->|Hr]; [left; reflexivity|]. right.
      intros Hvv Hv. apply (Hr Hvv). eapply settles_value; [exact Hcall|exact Hv].
    + eapply keeps_no_setters; [|exact Hns]. eapply settles_keeps, Hcall.
Qed.

End Dispatch.

(** With observers that return, raise or are closures of [bind_to], every
    [set(v)] settles the world on [v], and only objects that did not hold
    [v] announce a change. *)
Lemma set_settles (fuel : nat) self (v : value) w :
  no_setters w → settles v (changed v w) w (set fuel self v w).2.
Proof.
  revert self v w. induction fuel as [|fuel IH]; intros self v w Hns.
  - apply settles_refl.
  - destruct (heap w !! self) as [o|] eqn:Hl.
    2: { simpl. unfold and_then, load. rewrite Hl. apply settles_refl. }
    destruct (py_eq (_value o) v) eqn:Heq.
    { rewrite (set_noop _ _ _ _ _ Hl Heq). apply settles_refl. }
    rewrite (set_unfold _ _ _ _ _ Hl Heq).
    assert (Hself : changed v w self).
    { intros Hvv. unfold value_of. rewrite Hl. simpl. intros [= E].
      rewrite E in Heq. congruence. }
    destruct (no_setters_lookup _ _ _ Hns Hl) as [HB HA].
    pose proof (dispatch_settles (set fuel) IH
                  (Observable._beforeObserverList (observable o))
                  self (_value o) v w Hns HB) as H1.
    destruct (Observable.call_each _ _ _ w) as [[[]|e|f] w1]; simpl in H1.
    + destruct (settles_lookup _ _ _ _ _ _ H1 Hl) as (o1 & Hl1 & Hobs1 & _).
      rewrite Hl1.
      pose proof (settles_stored v (λ r, r = self ∨ changed v w r)
                    w1 self o1 Hl1) as H2.
      pose proof (settles_trans _ _ _ _ _ H1 H2) as H12.
      assert (Hns2 : no_setters (stored self o1 v w1)).
      { eapply keeps_no_setters; [|exact Hns]. eapply settles_keeps, H12. }
      rewrite <- Hobs1 in HA.
      pose proof (dispatch_settles (set fuel) IH
                    (Observable._afterObserverList (observable o1))
                    self (_value o) v (stored self o1 v w1) Hns2 HA) as H3.
      eapply settles_weaken; [|eapply settles_trans; [exact H12|]].
      * intros r [->|Hr]; [exact Hself|exact Hr].
      * eapply settles_weaken; [|exact H3].
        intros r [->|Hr]; [left; reflexivity|]. right.
        intros Hvv Hv. apply (Hr Hvv). eapply settles_value; [exact H12|exact Hv].
    + eapply settles_weaken; [|exact H1].
      intros r [->|Hr]; [exact Hself|exact Hr].
    + eapply settles_weaken; [|exact H1].
      intros r [->|Hr]; [exact Hself|exact Hr].
Qed.

(** A [set(v)] that returns leaves [v] in its object. *)
Lemma set_establishes (fuel : nat) self (v : value) w (w' : world) o :
  no_setters w →
  heap w !! self = Some o → set fuel self v w = (Ok tt, w') →
  value_of w' self = Some v.
Proof.
  intros Hns Hl Hset. destruct fuel as [|fuel]; [discriminate|].
  destruct (py_eq (_value o) v) eqn:Heq.
  { rewrite (set_noop _ _ _ _ _ Hl Heq) in Hset. injection Hset as <-.
    unfold value_of. rewrite Hl. simpl. f_equal. apply py_eq_sound, Heq. }
  rewrite (set_unfold _ _ _ _ _ Hl Heq) in Hset.
  destruct (no_setters_lookup _ _ _ Hns Hl) as [HB HA].
  pose proof (dispatch_settles (set fuel) (set_settles fuel)
                (Observable._beforeObserverList (observable o))
                self (_value o) v w Hns HB) as H1.
  destruct (Observable.call_each _ _ _ w) as [[[]|e|f] w1]; try discriminate.
  simpl in H1.
  destruct (settles_lookup _ _ _ _ _ _ H1 Hl) as (o1 & Hl1 & Hobs1 & _).
  rewrite Hl1 in Hset.
  assert (Hns2 : no_setters (stored self o1 v w1)).
  { eapply keeps_no_setters; [|exact Hns].
    eapply keeps_trans; [eapply settles_keeps, H1|].
    apply (keeps_stored v _ _ _ Hl1). }
  rewrite <- Hobs1 in HA.
  pose proof (dispatch_settles (set fuel) (set_settles fuel)
                (Observable._afterObserverList (observable o1))
                self (_value o) v (stored self o1 v w1) Hns2 HA) as H3.
  rewrite Hset in H3. simpl in H3.
  eapply settles_value; [exact H3|].
  unfold value_of. simpl.
  rewrite list_lookup_insert_eq by (eapply lookup_lt_Some, Hl1). reflexivity.
Qed.




(** Observers that leave the observables alone and all return. *)
Lemma call_each_users_ok (set_ : ref → value → M world unit)
    (observers : list callback) a w (w' : world) :
  Forall passive observers →
  Observable.call_each (call set_) observers a w = (Ok tt, w') →
  w' = logged observers a w.
Proof.
  intros H. revert w. induction H as [|cb rest Hcb _ IH]; intros w.
  - simpl. intros [= <-]. symmetry. apply logged_nil.
  - cbn [Observable.call_each]. unfold and_then at 1. unfold call, and_then, log, modify.
    destruct cb as [id|id e|id target|id target z]; simpl.
    + intros Hrest. apply IH in Hrest as ->.
      unfold logged. simpl. rewrite <- app_assoc. reflexivity.
    + discriminate.
    + destruct Hcb.
    + destruct Hcb.
Qed.



End Frame.

(** ** ObservableValue: a bound pair *)

Section BoundPair.
Import ObservableValue.
Variables (w : world) (a b : ref) (oa ob : t) (v : value).
Variables (Ba Aa1 Aa2 Bb Ab1 Ab2 : list callback) (i j : nat).
Hypothesis Hab : a ≠ b.
Hypothesis Ha : heap w !! a = Some oa.
Hypothesis Hb : heap w !! b = Some ob.
Hypothesis Hoa : observable oa = Observable.Make Ba (Aa1 ++ Forwarder i b :: Aa2).
Hypothesis Hob : observable ob = Observable.Make Bb (Ab1 ++ Forwarder j a :: Ab2).
Hypothesis HBa : Forall is_recorder Ba.
Hypothesis HAa1 : Forall is_recorder Aa1.
Hypothesis HAa2 : Forall is_recorder Aa2.
Hypothesis HBb : Forall is_recorder Bb.
Hypothesis HAb1 : Forall is_recorder Ab1.
Hypothesis HAb2 : Forall is_recorder Ab2.
Hypothesis Hvv : py_eq v v = true.





End BoundPair.



(** Setting either of two values that are bound to each other, and
    observed by nobody else, to a [nan] exhausts every recursion depth:
    the value in place never equals the incoming one, so each closure
    calls the other. *)
Lemma bound_pair_nan (i : nat) (fuel : nat) :
  ∀ (va vb : value) (ma mb : gmap ref callback) (n : nat)
    (t : list (callback * ObservableValue.args)) (r : ref),
    r = 0%nat ∨ r = 1%nat →
    ∃ w',
      ObservableValue.set fuel r (VNaN i)
        {| ObservableValue.heap :=
             [{| ObservableValue.observable := Observable.Make [] [Forwarder 0 1%nat];
                 ObservableValue._value := va;
                 ObservableValue._bindingMap := ma |};
              {| ObservableValue.observable := Observable.Make [] [Forwarder 1 0%nat];
                 ObservableValue._value := vb;
                 ObservableValue._bindingMap := mb |}];
           ObservableValue.next_id := n;
           ObservableValue.trace := t |} = (Fault OutOfFuel, w').
Proof.
  induction fuel as [|fuel IH]; intros va vb ma mb n t r Hr.
  - eexists. reflexivity.
  - destruct Hr as [-> | ->].
    + erewrite set_unfold; [|reflexivity|apply py_eq_nan]. simpl.
      unfold and_then, ObservableValue.call, and_then, ObservableValue.log, modify.
      simpl.
      destruct (IH (VNaN i) vb ma mb n
                  (t ++ [(Forwarder 0 1%nat, ObservableValue.Args 0%nat va (VNaN i))])
                  1%nat) as [w' E]; [auto|].
      unfold ObservableValue.with_value. simpl. rewrite E. eauto.
    + erewrite set_unfold; [|reflexivity|apply py_eq_nan]. simpl.
      unfold and_then, ObservableValue.call, and_then, ObservableValue.log, modify.
      simpl.
      destruct (IH va (VNaN i) ma mb n
                  (t ++ [(Forwarder 1 0%nat, ObservableValue.Args 1%nat vb (VNaN i))])
                  0%nat) as [w' E]; [auto|].
      unfold ObservableValue.with_value. simpl. rewrite E. eauto.
Qed.



(** The pair of the witness is what [bind] builds from two new values. *)
Example bind_builds_bound_pair :
  (do ab <- ObservableValue.two_values (VInt 1) (VInt 2);
   ObservableValue.bind 1 (ObservableValue.Obs ab.1) (ObservableValue.Obs ab.2))
    ObservableValue.empty =
  (Ok tt,
   {| ObservableValue.heap :=
        [{| ObservableValue.observable := Observable.Make [] [Forwarder 0 1%nat];
            ObservableValue._value := VInt 1;
            ObservableValue._bindingMap := {[1%nat := Forwarder 1 0%nat]} |};
         {| ObservableValue.observable := Observable.Make [] [Forwarder 1 0%nat];
            ObservableValue._value := VInt 1;
            ObservableValue._bindingMap := {[0%nat := Forwarder 0 1%nat]} |}];
      ObservableValue.next_id := 2;
      ObservableValue.trace := [] |}).
Proof. reflexivity. Qed.

(** ** ObservableValue: bind and unbind *)

Section BindFacts.
Import ObservableValue.
Implicit Types (w : world) (self other : ref) (o : t).

(** [self.bind_to(other)] up to its final [self.set(other.get())]: a new
    closure is recorded under [other] in the binding map of [self] and
    appended to the after-observers of [other]. *)
Lemma bind_to_unfold (fuel : nat) self other w o oo :
  self ≠ other →
  heap w !! self = Some o → heap w !! other = Some oo →
  let handle := Forwarder (next_id w) self in
  bind_to fuel self (Obs other) w =
  set fuel self (_value oo)
    {| heap :=
         <[other := with_observable (Observable.add_after_observer handle) oo]>
           (<[self := with_bindingMap (insert other handle) o]> (heap w));
       next_id := S (next_id w);
       trace := trace w |}.
Proof.
  intros Hne Hs Ho handle.
  assert (Hls : (self < length (heap w))%nat) by (eapply lookup_lt_Some, Hs).
  assert (Hlo : (other < length (heap w))%nat) by (eapply lookup_lt_Some, Ho).
  unfold bind_to, and_then, fresh, store, and_then, load, modify. simpl.
  rewrite Hs. simpl. rewrite list_lookup_insert_eq by exact Hls. simpl.
  rewrite lookup_insert_eq.
  unfold add_after_observer, store, and_then, load, modify, get, and_then, load, ret.
  simpl. rewrite list_lookup_insert_ne by exact Hne. rewrite Ho. simpl.
  rewrite list_lookup_insert_eq by (rewrite length_insert; exact Hlo).
  reflexivity.
Qed.

End BindFacts.



(** [bind(a, b)] with [a] holding a [nan], and nobody observing: the
    first [bind_to] gives the [nan] to [b]; the second sets [a] to the
    [nan] of [b], which [a] does not find equal to the one it holds, and
    the two closures call each other without end. *)
Lemma bind_nan_never_returns (fuel : nat) :
  (ObservableValue.bind fuel (ObservableValue.Obs 0%nat) (ObservableValue.Obs 1%nat)
     (ObservableValue.two_values (VNaN 0) (VInt 2) ObservableValue.empty).2).1
  = Fault OutOfFuel.
Proof.
  destruct fuel as [|fuel]; [reflexivity|].
  destruct (bound_pair_nan 0 (S fuel) (VNaN 0) (VNaN 0)
              {[1%nat := Forwarder 1 0%nat]} {[0%nat := Forwarder 0 1%nat]}
              2 [] 0%nat) as [w' E]; [auto|].
  set (w1 :=
    {| ObservableValue.heap :=
         [{| ObservableValue.observable := Observable.Make [] [Forwarder 0 1%nat];
             ObservableValue._value := VNaN 0;
             ObservableValue._bindingMap := ∅ |};
          {| ObservableValue.observable := Observable.Make [] [];
             ObservableValue._value := VNaN 0;
             ObservableValue._bindingMap := {[0%nat := Forwarder 0 1%nat]} |}];
       ObservableValue.next_id := 1;
       ObservableValue.trace := [] |}).
  assert (H1 : ObservableValue.bind_to (S fuel) 1%nat (ObservableValue.Obs 0%nat)
                 (ObservableValue.two_values (VNaN 0) (VInt 2) ObservableValue.empty).2
               = (Ok tt, w1)).
  { erewrite bind_to_unfold; [|lia|reflexivity|reflexivity].
    erewrite set_recorders;
      [|reflexivity|apply py_eq_nan|constructor|constructor].
    reflexivity. }
  assert (H2 : ObservableValue.bind_to (S fuel) 0%nat (ObservableValue.Obs 1%nat) w1
               = (Fault OutOfFuel, w')).
  { erewrite bind_to_unfold; [|lia|reflexivity|reflexivity]. exact E. }
  unfold ObservableValue.bind, ObservableValue.receiver.
  unfold and_then at 1. unfold ret at 1. unfold and_then at 1.
  rewrite H1. unfold and_then, ret. rewrite H2. reflexivity.
Qed.



(** C10, as the code behaves: after [a.bind_to(b)] twice, [b] carries two
    forwarding closures and the binding map of [a] holds the second; a
    following [a.unbind_from(b)] looks for that closure among the
    after-observers of [a] itself, where it never was, and raises
    [ValueError]: both closures stay on [b] and the binding stays in the
    map. *)
Theorem rebind_then_unbind_removes_nothing :
  let twice :=
    (do ab <- ObservableValue.two_values (VInt 1) (VInt 2);
     ObservableValue.bind_to 5 ab.1 (ObservableValue.Obs ab.2) ;;
     ObservableValue.bind_to 5 ab.1 (ObservableValue.Obs ab.2))
      ObservableValue.empty in
  let after := ObservableValue.unbind_from 0%nat (ObservableValue.Obs 1%nat) twice.2 in
  twice.1 = Ok tt ∧
  ObservableValue.after_observers twice.2 1%nat =
    Some [Forwarder 0 0%nat; Forwarder 1 0%nat] ∧
  ObservableValue.binding twice.2 0%nat 1%nat = Some (Forwarder 1 0%nat) ∧
  after.1 = Raised ValueError ∧
  ObservableValue.after_observers after.2 1%nat =
    Some [Forwarder 0 0%nat; Forwarder 1 0%nat] ∧
  ObservableValue.binding after.2 0%nat 1%nat = Some (Forwarder 1 0%nat).
Proof. vm_compute. repeat split. Qed.

(** The handle is looked for on the wrong object whenever the two objects
    differ and the closure is not also registered on [self]. *)
Lemma unbind_from_raises
    (w : ObservableValue.world) (self other : ref) (o : ObservableValue.t)
    (handle : callback) :
  ObservableValue.heap w !! self = Some o →
  ObservableValue._bindingMap o !! other = Some handle →
  handle ∉ Observable._afterObserverList (ObservableValue.observable o) →
  ObservableValue.unbind_from self (ObservableValue.Obs other) w =
  (Raised ValueError, w).
Proof.
  intros Hs Hb Hnot.
  unfold ObservableValue.unbind_from, and_then, ObservableValue.load.
  rewrite Hs, Hb.
  unfold ObservableValue.remove_after_observer, and_then, ObservableValue.load.
  rewrite Hs. unfold Observable.remove_after_observer.
  assert (Hrm : list_remove callback_eq handle
            (Observable._afterObserverList (ObservableValue.observable o)) = None).
  { induction (Observable._afterObserverList (ObservableValue.observable o))
      as [|y l IH]; [reflexivity|].
    simpl. unfold callback_eq at 1.
    apply not_elem_of_cons in Hnot as [Hy Hl].
    rewrite bool_decide_eq_false_2 by congruence.
    rewrite (IH Hl). reflexivity. }
  rewrite Hrm. reflexivity.
Qed.

(** ** Writes that change nothing *)

Lemma class_attribute_public (name : string) (v : value) :
  ObservableObject.class_attribute name = Some v →
  ObservableObject.startswith "_" name = false.
Proof.
  unfold ObservableObject.class_attribute.
  destruct (decide (name = "CREATE")) as [->|_]; [reflexivity|].
  destruct (decide (name = "MODIFY")) as [->|_]; [reflexivity|].
  destruct (decide (name = "DELETE")) as [->|_]; [reflexivity|].
  destruct (decide _) as [Hn|_]; [|discriminate].
  intros _. repeat (apply elem_of_cons in Hn as [->|Hn]; [reflexivity|]).
  apply elem_of_nil in Hn as [].
Qed.

(** C4.  A write of the value that is already there calls no observer and
    leaves the world as it is: [set(v)] on an [ObservableValue] holding
    [v], [l[i] = v] on a list whose element at [i] is [v], [d[k] = v] on a
    dictionary that maps [k] to [v], and [o.k = v] on an object whose
    attribute [k] is [v]. *)
Theorem noop_write_dispatches_nothing :
  (∀ (fuel : nat) (w : ObservableValue.world) (self : ref)
     (o : ObservableValue.t) (v : value),
     ObservableValue.heap w !! self = Some o →
     py_eq (ObservableValue._value o) v = true →
     ObservableValue.set (S fuel) self v w = (Ok tt, w)) ∧
  (∀ (w : ObservableList.world) (index : Z) (old v : value),
     ObservableList.list_getitem index (storage w) = Some old →
     py_eq old v = true →
     ObservableList.__setitem__ index v w = (Ok tt, w)) ∧
  (∀ (w : ObservableDict.world) (key old v : value),
     hashable key = true →
     ObservableDict.dict_lookup key (storage w) = Some old →
     py_eq old v = true →
     ObservableDict.__setitem__ key v w = (Ok tt, w)) ∧
  (∀ (w : ObservableObject.world) (key : string) (old v : value),
     ObservableObject.lookup_attribute key (storage w) = Some old →
     py_eq old v = true →
     ObservableObject.__setattr__ key v w = (Ok tt, w)).
Proof.
  split; [|split; [|split]].
  - intros fuel w self o v. apply set_noop.
  - intros [l obs t] index old v Hget Heq. simpl in Hget.
    unfold ObservableList.__setitem__, and_then, read, gets, expect. simpl.
    rewrite Hget. simpl. rewrite Heq. reflexivity.
  - intros w key old v Hk Hl Heq. rewrite setitem_run.
    unfold ObservableDict.plan. rewrite Hk, Hl, Heq. reflexivity.
  - intros w key old v Hl Heq.
    change (ObservableObject.__setattr__ key v w)
      with (ObservableObject.exec (ObservableObject.SetAttr key v) w).
    destruct (ObservableObject.startswith "_" key) eqn:Hp.
    + unfold ObservableObject.exec, ObservableObject.__setattr__. rewrite Hp.
      unfold ObservableObject.lookup_attribute in Hl.
      destruct (ObservableObject.reserved key) eqn:Hr; [discriminate|].
      rewrite (object_setattr_plain _ _ _ Hr).
      destruct w as [attrs obs t]. simpl in *.
      destruct (attrs !! key) as [x|] eqn:Hx.
      * injection Hl as ->. apply py_eq_sound in Heq as ->.
        rewrite (insert_id _ _ _ Hx). reflexivity.
      * apply class_attribute_public in Hl. congruence.
    + rewrite object_exec_plan. unfold ObservableObject.plan.
      rewrite Hp, Hl, Heq. reflexivity.
Qed.

Lemma noop_write_dispatches_nothing_witness :
  ObservableValue.set 1 0%nat (VInt 2)
    {| ObservableValue.heap :=
         [{| ObservableValue.observable := Observable.Make [Recorder 0] [Recorder 1];
             ObservableValue._value := VInt 2;
             ObservableValue._bindingMap := ∅ |}];
       ObservableValue.next_id := 0;
       ObservableValue.trace := [] |} =
  (Ok tt,
   {| ObservableValue.heap :=
        [{| ObservableValue.observable := Observable.Make [Recorder 0] [Recorder 1];
            ObservableValue._value := VInt 2;
            ObservableValue._bindingMap := ∅ |}];
      ObservableValue.next_id := 0;
      ObservableValue.trace := [] |}) ∧
  ObservableList.__setitem__ (-1) (VStr "b")
    {| storage := [VStr "a"; VStr "b"];
       observable := Observable.Make [Recorder 0] [Recorder 1];
       trace := [] |} =
  (Ok tt,
   {| storage := [VStr "a"; VStr "b"];
      observable := Observable.Make [Recorder 0] [Recorder 1];
      trace := [] |}) ∧
  ObservableDict.__setitem__ (VStr "x") (VInt 1)
    {| storage := [(VStr "x", VInt 1)];
       observable := Observable.Make [Recorder 0] [Recorder 1];
       trace := [] |} =
  (Ok tt,
   {| storage := [(VStr "x", VInt 1)];
      observable := Observable.Make [Recorder 0] [Recorder 1];
      trace := [] |}) ∧
  ObservableObject.__setattr__ "text" (VStr "a")
    {| storage := <["text" := VStr "a"]> ∅;
       observable := Observable.Make [Recorder 0] [Recorder 1];
       trace := [] |} =
  (Ok tt,
   {| storage := <["text" := VStr "a"]> ∅;
      observable := Observable.Make [Recorder 0] [Recorder 1];
      trace := [] |}).
Proof.
  destruct noop_write_dispatches_nothing as (HV & HL & HD & HO).
  split; [|split; [|split]].
  - eapply HV; reflexivity.
  - apply (HL _ (-1) (VStr "b")); reflexivity.
  - apply (HD _ (VStr "x") (VInt 1)); reflexivity.
  - apply (HO _ "text" (VStr "a")); reflexivity.
Defined.

(** * Further properties of the methods *)

(** ** Registration *)

Section Registration.
Context {T : Type}.
Implicit Types (w : world T) (cb : callback).

Lemma list_remove_absent cb (l : list callback) :
  cb ∉ l → list_remove callback_eq cb l = None.
Proof.
  induction l as [|y l IH]; [reflexivity|]. intros Hnot.
  apply not_elem_of_cons in Hnot as [Hy Hl]. simpl. unfold callback_eq at 1.
  rewrite bool_decide_eq_false_2 by congruence. rewrite (IH Hl). reflexivity.
Qed.

Lemma list_remove_first cb (pre post : list callback) :
  cb ∉ pre → list_remove callback_eq cb (pre ++ cb :: post) = Some (pre ++ post).
Proof.
  induction pre as [|y pre IH]; intros Hnot; simpl.
  - unfold callback_eq. rewrite bool_decide_eq_true_2 by reflexivity. reflexivity.
  - apply not_elem_of_cons in Hnot as [Hy Hl]. unfold callback_eq at 1.
    rewrite bool_decide_eq_false_2 by congruence. rewrite (IH Hl). reflexivity.
Qed.

(** X1.  Removing a handle that is not registered raises [ValueError] and
    leaves the container, its observers and the trace as they were; this
    holds of both lists. *)
Theorem remove_unregistered_observer_raises w cb :
  (cb ∉ Observable._beforeObserverList (observable w) →
   remove_before_observer cb w = (Raised ValueError, w)) ∧
  (cb ∉ Observable._afterObserverList (observable w) →
   remove_after_observer cb w = (Raised ValueError, w)).
Proof.
  split; intros Hnot.
  - unfold remove_before_observer, and_then, gets, Observable.remove_before_observer.
    rewrite (list_remove_absent _ _ Hnot). reflexivity.
  - unfold remove_after_observer, and_then, gets, Observable.remove_after_observer.
    rewrite (list_remove_absent _ _ Hnot). reflexivity.
Qed.

(** X2.  Removing a registered handle drops its first registration only: the
    observers before it and after it, later registrations of the same
    handle among them, keep their order; the other list, the storage and
    the trace are untouched. *)
Theorem remove_observer_drops_first_registration
    w cb (pre post : list callback) :
  cb ∉ pre →
  (Observable._beforeObserverList (observable w) = pre ++ cb :: post →
   remove_before_observer cb w =
   (Ok tt,
    {| storage := storage w;
       observable :=
         Observable.Make (pre ++ post)
           (Observable._afterObserverList (observable w));
       trace := trace w |})) ∧
  (Observable._afterObserverList (observable w) = pre ++ cb :: post →
   remove_after_observer cb w =
   (Ok tt,
    {| storage := storage w;
       observable :=
         Observable.Make (Observable._beforeObserverList (observable w))
           (pre ++ post);
       trace := trace w |})).
Proof.
  intros Hnot. split; intros Hl.
  - unfold remove_before_observer, and_then, gets, Observable.remove_before_observer.
    rewrite Hl, (list_remove_first _ _ _ Hnot). reflexivity.
  - unfold remove_after_observer, and_then, gets, Observable.remove_after_observer.
    rewrite Hl, (list_remove_first _ _ _ Hnot). reflexivity.
Qed.

(** X3.  Registering a handle and removing it again gives back the observers
    there were, when the handle was not registered before. *)
Theorem add_then_remove_observer w cb :
  (cb ∉ Observable._beforeObserverList (observable w) →
   (add_before_observer cb ;; remove_before_observer cb) w = (Ok tt, w)) ∧
  (cb ∉ Observable._afterObserverList (observable w) →
   (add_after_observer cb ;; remove_after_observer cb) w = (Ok tt, w)).
Proof.
  destruct w as [s [B A] t]. simpl. split; intros Hnot.
  - unfold add_before_observer, remove_before_observer, and_then, gets,
      with_observable, modify, Observable.remove_before_observer,
      Observable.add_before_observer. simpl.
    rewrite (list_remove_first cb B [] Hnot). simpl. rewrite app_nil_r. reflexivity.
  - unfold add_after_observer, remove_after_observer, and_then, gets,
      with_observable, modify, Observable.remove_after_observer,
      Observable.add_after_observer. simpl.
    rewrite (list_remove_first cb A [] Hnot). simpl. rewrite app_nil_r. reflexivity.
Qed.

End Registration.

Lemma remove_unregistered_observer_raises_witness :
  remove_after_observer (Recorder 2)
    {| storage := [VInt 1];
       observable := Observable.Make [Recorder 2] [Recorder 0; Recorder 1];
       trace := [] |} =
  (Raised ValueError,
   {| storage := [VInt 1];
      observable := Observable.Make [Recorder 2] [Recorder 0; Recorder 1];
      trace := [] |}).
Proof.
  apply (proj2 (remove_unregistered_observer_raises
                  {| storage := [VInt 1];
                     observable := Observable.Make [Recorder 2] [Recorder 0; Recorder 1];
                     trace := [] |} (Recorder 2))).
  simpl. intros H. repeat (apply elem_of_cons in H as [H|H]; [discriminate|]).
  apply elem_of_nil in H as [].
Defined.

Lemma remove_observer_drops_first_registration_witness :
  remove_before_observer (Recorder 1)
    {| storage := [VInt 1];
       observable :=
         Observable.Make [Recorder 0; Recorder 1; Recorder 2; Recorder 1] [];
       trace := [] |} =
  (Ok tt,
   {| storage := [VInt 1];
      observable := Observable.Make [Recorder 0; Recorder 2; Recorder 1] [];
      trace := [] |}).
Proof.
  apply (proj1 (remove_observer_drops_first_registration
                  {| storage := [VInt 1];
                     observable :=
                       Observable.Make
                         [Recorder 0; Recorder 1; Recorder 2; Recorder 1] [];
                     trace := [] |}
                  (Recorder 1) [Recorder 0] [Recorder 2; Recorder 1]
                  ltac:(intros H; apply elem_of_cons in H as [H|H];
                        [discriminate | apply elem_of_nil in H as []]))).
  reflexivity.
Defined.

Lemma add_then_remove_observer_witness :
  (add_before_observer (Recorder 5) ;; remove_before_observer (Recorder 5))
    {| storage := [VInt 1];
       observable := Observable.Make [Recorder 0] [Recorder 5];
       trace := [] |} =
  (Ok tt,
   {| storage := [VInt 1];
      observable := Observable.Make [Recorder 0] [Recorder 5];
      trace := [] |}).
Proof.
  apply (proj1 (add_then_remove_observer
                  {| storage := [VInt 1];
                     observable := Observable.Make [Recorder 0] [Recorder 5];
                     trace := [] |} (Recorder 5))).
  simpl. intros H. apply elem_of_cons in H as [H|H];
    [discriminate | apply elem_of_nil in H as []].
Defined.

(** ** Reading methods through their steps *)

Lemma then_ret {W A} (m : M W unit) (x : A) (w w' : W) (out : outcome A) :
  (m ;; ret x) w = (out, w') →
  m w = (match out with
         | Ok _ => Ok tt
         | Raised e => Raised e
         | Fault f => Fault f
         end, w').
Proof.
  unfold and_then, ret. destruct (m w) as [[[]|e|f] w1]; intros [= <- <-]; reflexivity.
Qed.

Lemma ret_then {W A} (m : M W unit) (x : A) (w w' : W) :
  m w = (Ok tt, w') → (m ;; ret x) w = (Ok x, w').
Proof. unfold and_then, ret. intros ->. reflexivity. Qed.

(** What a step that returns has left in the storage. *)
Lemma run_ok_storage {T R} (s : step T R) (w w' : world T) (r : R) :
  run s w = (Ok r, w') →
  match s with
  | Refuse _ | Stop _ => False
  | Skip r' => r' = r ∧ storage w' = storage w
  | Quiet t r' => r' = r ∧ storage w' = t
  | Fire _ m => m.1 = Ok r ∧ storage w' = m.2
  end.
Proof.
  destruct s as [e|f|r0|t r0|ev m]; simpl.
  - discriminate.
  - discriminate.
  - intros [= -> <-]. auto.
  - unfold and_then, write, modify, ret. simpl. intros [= -> <-]. auto.
  - pose proof (run_fire ev m w) as H. simpl in H. unfold run in H. rewrite H.
    clear H.
    destruct (reached (Observable._beforeObserverList (observable w))) as [Bl [e|]];
      simpl; [discriminate|].
    destruct m as [[r0|e|f] t]; simpl; try discriminate.
    destruct (reached (Observable._afterObserverList (observable w))) as [Al [e|]];
      simpl; [discriminate|].
    intros [= -> <-]. auto.
Qed.

(** ** ObservableList: positions *)

Section ListPositions.
Import ObservableList.
Implicit Types (l : list value) (index : Z).

Lemma position_nonneg (n : nat) index :
  0 ≤ index < Z.of_nat n → position n index = Some (Z.to_nat index).
Proof. intros H. unfold position. rewrite decide_True by exact H. reflexivity. Qed.

Lemma position_neg (n : nat) index :
  - Z.of_nat n ≤ index < 0 → position n index = Some (Z.to_nat (Z.of_nat n + index)).
Proof.
  intros H. unfold position. rewrite decide_False by lia.
  rewrite decide_True by exact H. reflexivity.
Qed.

Lemma position_out (n : nat) index :
  ¬ (- Z.of_nat n ≤ index < Z.of_nat n) → position n index = None.
Proof.
  intros H. unfold position. rewrite decide_False by lia.
  rewrite decide_False by lia. reflexivity.
Qed.

Lemma position_lt (n : nat) index (i : nat) :
  position n index = Some i → (i < n)%nat.
Proof.
  unfold position. destruct (decide _) as [H|_]; [intros [= <-]; lia|].
  destruct (decide _) as [H|_]; [intros [= <-]; lia|discriminate].
Qed.

Lemma list_getitem_out l index :
  ¬ (- Z.of_nat (length l) ≤ index < Z.of_nat (length l)) →
  list_getitem index l = None.
Proof. intros H. unfold list_getitem. rewrite (position_out _ _ H). reflexivity. Qed.

Lemma list_getitem_position l index (i : nat) :
  position (length l) index = Some i → list_getitem index l = l !! i.
Proof. intros H. unfold list_getitem. rewrite H. reflexivity. Qed.

Lemma position_inside (n : nat) index (i : nat) :
  position n index = Some i →
  (- Z.of_nat n ≤ index < Z.of_nat n)%Z ∧
  i = Z.to_nat (if decide (index < 0)%Z then index + Z.of_nat n else index).
Proof.
  unfold position. destruct (decide (0 ≤ index < Z.of_nat n)%Z) as [H|H].
  - intros [= <-]. rewrite decide_False by lia. split; [lia|reflexivity].
  - destruct (decide (- Z.of_nat n ≤ index < 0)%Z) as [H'|H']; [|discriminate].
    intros [= <-]. rewrite decide_True by lia. split; [lia|f_equal; lia].
Qed.

(** [list.insert] at an index inside the list puts the value at the
    position the index denotes. *)
Lemma list_insert_at l index (i : nat) v :
  position (length l) index = Some i →
  list_insert index v l = Some (take i l ++ v :: drop i l).
Proof.
  intros Hp. apply position_inside in Hp as [Hr ->].
  unfold list_insert. rewrite decide_False by lia.
  destruct (decide (index < 0)%Z).
  - rewrite Z.max_r by lia. reflexivity.
  - rewrite Z.min_l by lia. reflexivity.
Qed.

(** [list.insert] at the length or beyond appends, if the index fits a
    machine word. *)
Lemma list_insert_beyond l index v :
  (Z.of_nat (length l) ≤ index)%Z →
  list_insert index v l =
  if decide (index < 2 ^ 63)%Z then Some (l ++ [v]) else None.
Proof.
  intros Hi. unfold list_insert. destruct (decide (index < 2 ^ 63)%Z).
  - rewrite decide_False by lia. rewrite decide_False by lia.
    rewrite Z.min_r by lia. rewrite Nat2Z.id.
    rewrite take_ge, drop_ge by lia. reflexivity.
  - rewrite decide_True by lia. reflexivity.
Qed.

End ListPositions.

(** ** ObservableList: insert *)

Section ListInsert.
Import ObservableList.
Implicit Types (w : world) (index : Z) (v : value).

Let any_sort : value → value → M (list value) unit := λ _ _ l, (Ok tt, l).

(** X4.  [insert] at the length of the list or beyond announces [None] as
    the old value.  An index that fits a machine word puts the value last.
    One that does not makes the builtin raise [OverflowError] after the
    before-observers have been called: nothing is inserted and no
    after-observer is called. *)
Theorem list_insert_at_end w index v :
  (Z.of_nat (length (storage w)) ≤ index)%Z →
  Forall is_recorder (Observable._beforeObserverList (observable w)) →
  Forall is_recorder (Observable._afterObserverList (observable w)) →
  let ev := Event INSERT (VInt index) VNone v in
  insert index v w =
  if decide (index < 2 ^ 63)%Z then
    (Ok tt,
     {| storage := storage w ++ [v]; observable := observable w;
        trace := trace w ++ pair_of_calls (observable w) ev |})
  else
    (Raised OverflowError,
     {| storage := storage w; observable := observable w;
        trace := trace w ++
          calls (Observable._beforeObserverList (observable w)) ev |}).
Proof.
  intros Hi HB HA ev.
  assert (Hplan : plan any_sort (Insert index v) (storage w) =
    Fire ev (if decide (index < 2 ^ 63)%Z
             then (Ok VNone, storage w ++ [v])
             else (Raised OverflowError, storage w))).
  { unfold plan. rewrite decide_False by lia.
    rewrite (list_insert_beyond _ _ _ Hi).
    destruct (decide (index < 2 ^ 63)%Z); reflexivity. }
  destruct (decide (index < 2 ^ 63)%Z).
  - apply (then_ret _ VNone _ _ (Ok VNone)).
    change (exec any_sort (Insert index v) w = (Ok VNone,
      {| storage := storage w ++ [v]; observable := observable w;
         trace := trace w ++ pair_of_calls (observable w) ev |})).
    rewrite list_exec_plan, Hplan. apply run_recorders; assumption.
  - apply (then_ret _ VNone _ _ (Raised OverflowError)).
    change (exec any_sort (Insert index v) w = (Raised OverflowError,
      {| storage := storage w; observable := observable w;
         trace := trace w ++
           calls (Observable._beforeObserverList (observable w)) ev |})).
    rewrite list_exec_plan, Hplan, run_fire. simpl.
    rewrite (reached_recorders _ HB). reflexivity.
Qed.

(** X5.  [insert] at an index below minus the length raises [IndexError] when
    it looks up the old value: nothing is announced or inserted, although
    the builtin [list.insert] would have put the value first. *)
Theorem list_insert_below_start w index v :
  (index < - Z.of_nat (length (storage w)))%Z →
  insert index v w = (Raised IndexError, w).
Proof.
  intros Hi.
  apply (then_ret _ VNone _ _ (Raised IndexError)).
  change (exec any_sort (Insert index v) w = (Raised IndexError, w)).
  rewrite list_exec_plan. unfold plan. rewrite decide_True by lia.
  rewrite list_getitem_out by lia. reflexivity.
Qed.

(** X6.  [insert] at a position inside the list announces the element that is
    there as the old value; afterwards the new value is at that position
    and the announced element right behind it. *)
Theorem list_insert_inside w (i : nat) (old v : value) :
  storage w !! i = Some old →
  Forall is_recorder (Observable._beforeObserverList (observable w)) →
  Forall is_recorder (Observable._afterObserverList (observable w)) →
  ∃ l',
    insert (Z.of_nat i) v w =
    (Ok tt,
     {| storage := l'; observable := observable w;
        trace := trace w ++
          pair_of_calls (observable w)
            (Event INSERT (VInt (Z.of_nat i)) old v) |}) ∧
    l' = take i (storage w) ++ v :: drop i (storage w) ∧
    l' !! i = Some v ∧ l' !! S i = Some old.
Proof.
  intros Hl HB HA.
  assert (Hlt : (i < length (storage w))%nat) by (eapply lookup_lt_Some, Hl).
  exists (take i (storage w) ++ v :: drop i (storage w)).
  split; [|split; [reflexivity|]].
  - apply (then_ret _ VNone _ _ (Ok VNone)).
    change (exec any_sort (Insert (Z.of_nat i) v) w = (Ok VNone,
      {| storage := take i (storage w) ++ v :: drop i (storage w);
         observable := observable w;
         trace := trace w ++
           pair_of_calls (observable w)
             (Event INSERT (VInt (Z.of_nat i)) old v) |})).
    assert (Hp : position (length (storage w)) (Z.of_nat i) = Some i).
    { rewrite position_nonneg by lia. rewrite Nat2Z.id. reflexivity. }
    rewrite list_exec_plan. unfold plan. rewrite decide_True by lia.
    rewrite (list_getitem_position _ _ i Hp), Hl.
    rewrite (list_insert_at _ _ _ _ Hp).
    apply run_recorders; assumption.
  - assert (Hlen : length (take i (storage w)) = i) by (rewrite length_take; lia).
    split.
    + rewrite lookup_app_r by lia. rewrite Hlen, Nat.sub_diag. reflexivity.
    + rewrite lookup_app_r by lia. rewrite Hlen.
      replace (S i - i)%nat with 1%nat by lia. simpl.
      rewrite lookup_drop, Nat.add_0_r. exact Hl.
Qed.

End ListInsert.

(** ** ObservableList: pop, remove, reverse, extend, item assignment *)

Section ListMethods.
Import ObservableList.
Implicit Types (w : world) (l : list value) (index : Z) (v : value).

Let any_sort : value → value → M (list value) unit := λ _ _ l, (Ok tt, l).

(** X7.  [pop] at an index outside the list, so any [pop] on an empty list,
    raises [IndexError] with nothing announced and nothing removed. *)
Theorem list_pop_out_of_range w index :
  ¬ (- Z.of_nat (length (storage w)) ≤ index < Z.of_nat (length (storage w)))%Z →
  pop index w = (Raised IndexError, w).
Proof.
  intros Hi.
  change (exec any_sort (Pop index) w = (Raised IndexError, w)).
  rewrite list_exec_plan. unfold plan.
  rewrite list_getitem_out by exact Hi. reflexivity.
Qed.

Lemma pop_inside w index (i : nat) (x : value) :
  position (length (storage w)) index = Some i →
  storage w !! i = Some x →
  Forall is_recorder (Observable._beforeObserverList (observable w)) →
  Forall is_recorder (Observable._afterObserverList (observable w)) →
  pop index w =
  (Ok x,
   {| storage := delete i (storage w); observable := observable w;
      trace := trace w ++
        pair_of_calls (observable w) (Event DELETE (VInt index) x VNone) |}).
Proof.
  intros Hp Hl HB HA.
  change (exec any_sort (Pop index) w = (Ok x,
    {| storage := delete i (storage w); observable := observable w;
       trace := trace w ++
         pair_of_calls (observable w) (Event DELETE (VInt index) x VNone) |})).
  rewrite list_exec_plan. unfold plan, list_pop.
  rewrite (list_getitem_position _ _ _ Hp), Hl, Hp. simpl. rewrite Hl. simpl.
  apply run_recorders; assumption.
Qed.

(** X8.  [pop] at an index inside the list, counted from either end, returns
    the element there, announces it as the old value of a DELETE at the
    index as it was given, and removes it. *)
Theorem list_pop_returns_element w index (i : nat) (x : value) :
  position (length (storage w)) index = Some i →
  storage w !! i = Some x →
  Forall is_recorder (Observable._beforeObserverList (observable w)) →
  Forall is_recorder (Observable._afterObserverList (observable w)) →
  pop index w =
  (Ok x,
   {| storage := delete i (storage w); observable := observable w;
      trace := trace w ++
        pair_of_calls (observable w) (Event DELETE (VInt index) x VNone) |}).
Proof. apply pop_inside. Qed.

(** X9.  [append(v)] followed by [pop()] (the default index is -1) returns [v]
    and gives back the list there was, having announced one APPEND at the
    old length and one DELETE at -1. *)
Theorem list_append_then_pop w v :
  Forall is_recorder (Observable._beforeObserverList (observable w)) →
  Forall is_recorder (Observable._afterObserverList (observable w)) →
  (append v ;; pop (-1)) w =
  (Ok v,
   {| storage := storage w; observable := observable w;
      trace := trace w ++
        pair_of_calls (observable w)
          (Event APPEND (VInt (Z.of_nat (length (storage w)))) VNone v) ++
        pair_of_calls (observable w) (Event DELETE (VInt (-1)) v VNone) |}).
Proof.
  intros HB HA.
  assert (Happ : append v w =
    (Ok tt,
     {| storage := storage w ++ [v]; observable := observable w;
        trace := trace w ++
          pair_of_calls (observable w)
            (Event APPEND (VInt (Z.of_nat (length (storage w)))) VNone v) |})).
  { apply (then_ret _ VNone _ _ (Ok VNone)).
    change (exec any_sort (Append v) w = (Ok VNone,
      {| storage := storage w ++ [v]; observable := observable w;
         trace := trace w ++
           pair_of_calls (observable w)
             (Event APPEND (VInt (Z.of_nat (length (storage w)))) VNone v) |})).
    rewrite list_exec_plan. apply run_recorders; assumption. }
  unfold and_then at 1. rewrite Happ.
  rewrite (pop_inside _ (-1) (length (storage w)) v); simpl.
  - rewrite <- app_assoc.
    replace (delete (length (storage w)) (storage w ++ [v])) with (storage w);
      [reflexivity|].
    clear. induction (storage w) as [|y l IH]; [reflexivity|].
    simpl. f_equal. exact IH.
  - rewrite length_app. simpl. rewrite position_neg by lia. f_equal. lia.
  - rewrite lookup_app_r by lia. rewrite Nat.sub_diag. reflexivity.
  - exact HB.
  - exact HA.
Qed.

Lemma list_index_spec v l (i : nat) :
  list_index v l = Some i →
  l !! i = Some v ∧ list_remove py_same v l = Some (delete i l) ∧
  ∀ j, (j < i)%nat → l !! j ≠ Some v.
Proof.
  revert i. induction l as [|y l IH]; intros i; simpl; [discriminate|].
  destruct (py_same y v) eqn:E.
  - intros [= <-]. apply py_same_sound in E as ->.
    repeat split. intros j Hj. lia.
  - destruct (list_index v l) as [i'|]; [|discriminate]. simpl.
    intros [= <-]. destruct (IH i' eq_refl) as (Hl & Hr & Hmin).
    split; [exact Hl|]. split; [rewrite Hr; reflexivity|].
    intros [|j] Hj; simpl.
    + intros [= ->]. rewrite py_same_refl in E. discriminate.
    + apply Hmin. lia.
Qed.

Lemma list_index_absent v l : v ∉ l → list_index v l = None.
Proof.
  induction l as [|y l IH]; [reflexivity|]. intros Hnot.
  apply not_elem_of_cons in Hnot as [Hy Hl]. simpl.
  destruct (py_same y v) eqn:E; [apply py_same_sound in E; congruence|].
  rewrite (IH Hl). reflexivity.
Qed.

(** X10.  [remove(v)] on a list that does not hold [v] raises [ValueError] with
    nothing announced and nothing removed. *)
Theorem list_remove_absent_value w v :
  v ∉ storage w → remove v w = (Raised ValueError, w).
Proof.
  intros Hnot.
  apply (then_ret _ VNone _ _ (Raised ValueError)).
  change (exec any_sort (Remove v) w = (Raised ValueError, w)).
  rewrite list_exec_plan. unfold plan.
  rewrite (list_index_absent _ _ Hnot). reflexivity.
Qed.

(** X11.  [remove(v)] on a list that holds [v] announces a DELETE at the first
    position that holds [v] and removes the element at that position. *)
Theorem list_remove_first_occurrence w v (i : nat) :
  storage w !! i = Some v →
  (∀ j, (j < i)%nat → storage w !! j ≠ Some v) →
  Forall is_recorder (Observable._beforeObserverList (observable w)) →
  Forall is_recorder (Observable._afterObserverList (observable w)) →
  remove v w =
  (Ok tt,
   {| storage := delete i (storage w); observable := observable w;
      trace := trace w ++
        pair_of_calls (observable w)
          (Event DELETE (VInt (Z.of_nat i)) v VNone) |}).
Proof.
  intros Hl Hmin HB HA.
  assert (Hidx : list_index v (storage w) = Some i).
  { destruct (list_index v (storage w)) as [k|] eqn:Hk.
    - destruct (list_index_spec _ _ _ Hk) as (Hlk & _ & Hmink).
      f_equal. destruct (Nat.lt_trichotomy k i) as [Hlt|[->|Hgt]]; [|reflexivity|].
      + exfalso. apply (Hmin k Hlt). exact Hlk.
      + exfalso. apply (Hmink i Hgt). exact Hl.
    - exfalso. revert Hk Hl. clear. revert i.
      induction (storage w) as [|y l IH]; intros i; [discriminate|]. simpl.
      destruct (py_same y v) eqn:E; [discriminate|].
      destruct (list_index v l) eqn:E2; [discriminate|]. intros _.
      destruct i as [|i]; simpl.
      + intros [= ->]. rewrite py_same_refl in E. discriminate.
      + apply (IH i). reflexivity. }
  destruct (list_index_spec _ _ _ Hidx) as (_ & Hrm & _).
  apply (then_ret _ VNone _ _ (Ok VNone)).
  change (exec any_sort (Remove v) w = (Ok VNone,
    {| storage := delete i (storage w); observable := observable w;
       trace := trace w ++
         pair_of_calls (observable w)
           (Event DELETE (VInt (Z.of_nat i)) v VNone) |})).
  rewrite list_exec_plan. unfold plan. rewrite Hidx, Hrm.
  apply run_recorders; assumption.
Qed.

(** X12.  [reverse()] twice gives back the list there was, and is announced
    twice. *)
Theorem list_reverse_twice w :
  Forall is_recorder (Observable._beforeObserverList (observable w)) →
  Forall is_recorder (Observable._afterObserverList (observable w)) →
  (reverse ;; reverse) w =
  (Ok tt,
   {| storage := storage w; observable := observable w;
      trace := trace w ++
        pair_of_calls (observable w) (Event REVERSE VNone VNone VNone) ++
        pair_of_calls (observable w) (Event REVERSE VNone VNone VNone) |}).
Proof.
  intros HB HA.
  assert (Hrev : ∀ w1 : world,
    Forall is_recorder (Observable._beforeObserverList (observable w1)) →
    Forall is_recorder (Observable._afterObserverList (observable w1)) →
    reverse w1 =
    (Ok tt,
     {| storage := rev (storage w1); observable := observable w1;
        trace := trace w1 ++
          pair_of_calls (observable w1) (Event REVERSE VNone VNone VNone) |})).
  { intros w1 HB1 HA1. apply (then_ret _ VNone _ _ (Ok VNone)).
    change (exec any_sort Reverse w1 = (Ok VNone,
      {| storage := rev (storage w1); observable := observable w1;
         trace := trace w1 ++
           pair_of_calls (observable w1) (Event REVERSE VNone VNone VNone) |})).
    rewrite list_exec_plan. apply run_recorders; assumption. }
  unfold and_then. rewrite (Hrev w HB HA). rewrite Hrev by assumption. simpl.
  rewrite rev_involutive, <- app_assoc. reflexivity.
Qed.

(** X13.  [extend] announces its argument as it is, once, at the old length.
    An argument that can be iterated over is appended element by element;
    one that cannot makes the builtin raise [TypeError] after the
    before-observers have been called, with the list unchanged and no
    after-observer called. *)
Theorem list_extend_by_iterable w (iterable : value) :
  Forall is_recorder (Observable._beforeObserverList (observable w)) →
  Forall is_recorder (Observable._afterObserverList (observable w)) →
  let ev := Event EXTEND (VInt (Z.of_nat (length (storage w)))) VNone iterable in
  extend iterable w =
  match iterate iterable with
  | Some xs =>
      (Ok tt,
       {| storage := storage w ++ xs; observable := observable w;
          trace := trace w ++ pair_of_calls (observable w) ev |})
  | None =>
      (Raised TypeError,
       {| storage := storage w; observable := observable w;
          trace := trace w ++
            calls (Observable._beforeObserverList (observable w)) ev |})
  end.
Proof.
  intros HB HA ev.
  pose proof (list_exec_plan any_sort (Extend iterable) w) as He.
  unfold plan in He. fold ev in He. rewrite run_fire in He.
  rewrite (reached_recorders _ HB), (reached_recorders _ HA) in He.
  destruct (iterate iterable) as [xs|]; simpl in He.
  - apply (then_ret _ VNone _ _ (Ok VNone)). exact He.
  - apply (then_ret _ VNone _ _ (Raised TypeError)). exact He.
Qed.

(** What an item assignment that returns has left, in the embedding,
    where no observer writes to the list. *)
Lemma list_setitem_reads w (w' : world) index v :
  __setitem__ index v w = (Ok tt, w') →
  list_getitem index (storage w') = Some v ∧
  length (storage w') = length (storage w) ∧
  ∀ i j, position (length (storage w)) index = Some i → j ≠ i →
         storage w' !! j = storage w !! j.
Proof.
  intros Hset. apply (ret_then _ VNone) in Hset.
  change (exec any_sort (SetItem index v) w = (Ok VNone, w')) in Hset.
  rewrite list_exec_plan in Hset. apply run_ok_storage in Hset.
  unfold plan in Hset.
  destruct (list_getitem index (storage w)) as [old|] eqn:Hget; [|destruct Hset].
  destruct (py_eq old v) eqn:Heq.
  - destruct Hset as [_ ->]. apply py_eq_sound in Heq as ->.
    repeat split. exact Hget.
  - unfold list_setitem in Hset. unfold list_getitem in Hget |- *.
    destruct (position (length (storage w)) index) as [i|] eqn:Hp;
      [|discriminate].
    simpl in Hset. destruct Hset as [_ ->].
    rewrite length_insert, Hp. simpl.
    split; [apply list_lookup_insert_eq, (position_lt _ _ _ Hp)|].
    split; [reflexivity|].
    intros i' j [= <-] Hne. apply list_lookup_insert_ne. congruence.
Qed.

(** X14.  With observers that return and leave the list alone, an item
    assignment at an index inside the list returns and can be read back:
    the list has the value at the index, is as long as before and holds
    what it held at the other positions. *)
Theorem list_setitem_then_getitem w index (i : nat) v :
  position (length (storage w)) index = Some i →
  Forall is_recorder (Observable._beforeObserverList (observable w)) →
  Forall is_recorder (Observable._afterObserverList (observable w)) →
  ∃ w' : world,
    __setitem__ index v w = (Ok tt, w') ∧
    list_getitem index (storage w') = Some v ∧
    length (storage w') = length (storage w) ∧
    ∀ j, j ≠ i → storage w' !! j = storage w !! j.
Proof.
  intros Hp HB HA.
  destruct (lookup_lt_is_Some_2 (storage w) i (position_lt _ _ _ Hp)) as [old Hl].
  assert (Hret : ∃ w' : world, __setitem__ index v w = (Ok tt, w')).
  { assert (H : ∃ w' : world, exec any_sort (SetItem index v) w = (Ok VNone, w')).
    { rewrite list_exec_plan. unfold plan, list_setitem.
      rewrite (list_getitem_position _ _ _ Hp), Hl, Hp.
      destruct (py_eq old v); [eexists; reflexivity|].
      change ((λ i0 : nat, <[i0:=v]> (storage w)) <$> Some i)
        with (Some (<[i:=v]> (storage w))).
      cbv beta iota.
      rewrite run_recorders by assumption. eexists. reflexivity. }
    destruct H as [w' H]. exists w'. apply (then_ret _ _ _ _ _ H). }
  destruct Hret as [w' Hset]. exists w'. split; [exact Hset|].
  destruct (list_setitem_reads _ _ _ _ Hset) as (Hget & Hlen & Hother).
  split; [exact Hget|]. split; [exact Hlen|].
  intros j Hj. apply (Hother i j Hp Hj).
Qed.

(** X15.  An item assignment at an index outside the list raises [IndexError]
    with nothing announced and nothing stored. *)
Theorem list_setitem_out_of_range w index v :
  ¬ (- Z.of_nat (length (storage w)) ≤ index < Z.of_nat (length (storage w)))%Z →
  __setitem__ index v w = (Raised IndexError, w).
Proof.
  intros Hi.
  apply (then_ret _ VNone _ _ (Raised IndexError)).
  change (exec any_sort (SetItem index v) w = (Raised IndexError, w)).
  rewrite list_exec_plan. unfold plan.
  rewrite list_getitem_out by exact Hi. reflexivity.
Qed.

End ListMethods.

(** The list [["a"; "b"; "c"]] observed by one before-observer and one
    after-observer, on which the statements above are tried. *)
Lemma list_insert_at_end_witness :
  ObservableList.insert 3 (VStr "d")
    {| storage := [VStr "a"; VStr "b"; VStr "c"];
       observable := Observable.Make [Recorder 0] [Recorder 1];
       trace := [] |} =
  (Ok tt,
   {| storage := [VStr "a"; VStr "b"; VStr "c"; VStr "d"];
      observable := Observable.Make [Recorder 0] [Recorder 1];
      trace := [(Recorder 0, Event "insert" (VInt 3) VNone (VStr "d"));
                (Recorder 1, Event "insert" (VInt 3) VNone (VStr "d"))] |}).
Proof.
  apply (list_insert_at_end
           {| storage := [VStr "a"; VStr "b"; VStr "c"];
              observable := Observable.Make [Recorder 0] [Recorder 1];
              trace := [] |} 3 (VStr "d")).
  - simpl. lia.
  - repeat constructor.
  - repeat constructor.
Defined.

Lemma list_insert_below_start_witness :
  ObservableList.insert (-4) (VStr "d")
    {| storage := [VStr "a"; VStr "b"; VStr "c"];
       observable := Observable.Make [Recorder 0] [Recorder 1];
       trace := [] |} =
  (Raised IndexError,
   {| storage := [VStr "a"; VStr "b"; VStr "c"];
      observable := Observable.Make [Recorder 0] [Recorder 1];
      trace := [] |}).
Proof.
  apply (list_insert_below_start
           {| storage := [VStr "a"; VStr "b"; VStr "c"];
              observable := Observable.Make [Recorder 0] [Recorder 1];
              trace := [] |} (-4) (VStr "d")).
  simpl. lia.
Defined.

Lemma list_insert_inside_witness :
  ∃ l',
    ObservableList.insert 1 (VStr "d")
      {| storage := [VStr "a"; VStr "b"; VStr "c"];
         observable := Observable.Make [Recorder 0] [Recorder 1];
         trace := [] |} =
    (Ok tt,
     {| storage := l';
        observable := Observable.Make [Recorder 0] [Recorder 1];
        trace := [(Recorder 0, Event "insert" (VInt 1) (VStr "b") (VStr "d"));
                  (Recorder 1, Event "insert" (VInt 1) (VStr "b") (VStr "d"))] |}) ∧
    l' = [VStr "a"; VStr "d"; VStr "b"; VStr "c"] ∧
    l' !! 1%nat = Some (VStr "d") ∧ l' !! 2%nat = Some (VStr "b").
Proof.
  apply (list_insert_inside
           {| storage := [VStr "a"; VStr "b"; VStr "c"];
              observable := Observable.Make [Recorder 0] [Recorder 1];
              trace := [] |} 1%nat (VStr "b") (VStr "d")).
  - reflexivity.
  - repeat constructor.
  - repeat constructor.
Defined.

Lemma list_pop_out_of_range_witness :
  ObservableList.pop (-1)
    {| storage := [];
       observable := Observable.Make [Recorder 0] [Recorder 1];
       trace := [] |} =
  (Raised IndexError,
   {| storage := [];
      observable := Observable.Make [Recorder 0] [Recorder 1];
      trace := [] |}).
Proof.
  apply (list_pop_out_of_range
           {| storage := [];
              observable := Observable.Make [Recorder 0] [Recorder 1];
              trace := [] |} (-1)).
  simpl. lia.
Defined.

Lemma list_pop_returns_element_witness :
  ObservableList.pop (-2)
    {| storage := [VStr "a"; VStr "b"; VStr "c"];
       observable := Observable.Make [Recorder 0] [Recorder 1];
       trace := [] |} =
  (Ok (VStr "b"),
   {| storage := [VStr "a"; VStr "c"];
      observable := Observable.Make [Recorder 0] [Recorder 1];
      trace := [(Recorder 0, Event "delete" (VInt (-2)) (VStr "b") VNone);
                (Recorder 1, Event "delete" (VInt (-2)) (VStr "b") VNone)] |}).
Proof.
  apply (list_pop_returns_element
           {| storage := [VStr "a"; VStr "b"; VStr "c"];
              observable := Observable.Make [Recorder 0] [Recorder 1];
              trace := [] |} (-2) 1%nat (VStr "b")).
  - reflexivity.
  - reflexivity.
  - repeat constructor.
  - repeat constructor.
Defined.

Lemma list_append_then_pop_witness :
  (ObservableList.append (VStr "d") ;; ObservableList.pop (-1))
    {| storage := [VStr "a"; VStr "b"; VStr "c"];
       observable := Observable.Make [Recorder 0] [Recorder 1];
       trace := [] |} =
  (Ok (VStr "d"),
   {| storage := [VStr "a"; VStr "b"; VStr "c"];
      observable := Observable.Make [Recorder 0] [Recorder 1];
      trace := [(Recorder 0, Event "append" (VInt 3) VNone (VStr "d"));
                (Recorder 1, Event "append" (VInt 3) VNone (VStr "d"));
                (Recorder 0, Event "delete" (VInt (-1)) (VStr "d") VNone);
                (Recorder 1, Event "delete" (VInt (-1)) (VStr "d") VNone)] |}).
Proof.
  apply (list_append_then_pop
           {| storage := [VStr "a"; VStr "b"; VStr "c"];
              observable := Observable.Make [Recorder 0] [Recorder 1];
              trace := [] |} (VStr "d")).
  - repeat constructor.
  - repeat constructor.
Defined.

Lemma list_remove_absent_value_witness :
  ObservableList.remove (VStr "z")
    {| storage := [VStr "a"; VStr "b"];
       observable := Observable.Make [Recorder 0] [Recorder 1];
       trace := [] |} =
  (Raised ValueError,
   {| storage := [VStr "a"; VStr "b"];
      observable := Observable.Make [Recorder 0] [Recorder 1];
      trace := [] |}).
Proof.
  apply (list_remove_absent_value
           {| storage := [VStr "a"; VStr "b"];
              observable := Observable.Make [Recorder 0] [Recorder 1];
              trace := [] |} (VStr "z")).
  simpl. intros H. repeat (apply elem_of_cons in H as [H|H]; [discriminate|]).
  apply elem_of_nil in H as [].
Defined.

Lemma list_remove_first_occurrence_witness :
  ObservableList.remove (VStr "b")
    {| storage := [VStr "a"; VStr "b"; VStr "c"; VStr "b"];
       observable := Observable.Make [Recorder 0] [Recorder 1];
       trace := [] |} =
  (Ok tt,
   {| storage := [VStr "a"; VStr "c"; VStr "b"];
      observable := Observable.Make [Recorder 0] [Recorder 1];
      trace := [(Recorder 0, Event "delete" (VInt 1) (VStr "b") VNone);
                (Recorder 1, Event "delete" (VInt 1) (VStr "b") VNone)] |}).
Proof.
  apply (list_remove_first_occurrence
           {| storage := [VStr "a"; VStr "b"; VStr "c"; VStr "b"];
              observable := Observable.Make [Recorder 0] [Recorder 1];
              trace := [] |} (VStr "b") 1%nat).
  - reflexivity.
  - intros [|j] Hj; [discriminate|lia].
  - repeat constructor.
  - repeat constructor.
Defined.

Lemma list_reverse_twice_witness :
  (ObservableList.reverse ;; ObservableList.reverse)
    {| storage := [VStr "a"; VStr "b"; VStr "c"];
       observable := Observable.Make [Recorder 0] [];
       trace := [] |} =
  (Ok tt,
   {| storage := [VStr "a"; VStr "b"; VStr "c"];
      observable := Observable.Make [Recorder 0] [];
      trace := [(Recorder 0, Event "reverse" VNone VNone VNone);
                (Recorder 0, Event "reverse" VNone VNone VNone)] |}).
Proof.
  apply (list_reverse_twice
           {| storage := [VStr "a"; VStr "b"; VStr "c"];
              observable := Observable.Make [Recorder 0] [];
              trace := [] |}).
  - repeat constructor.
  - constructor.
Defined.

Lemma list_extend_by_iterable_witness :
  ObservableList.extend (VInt 5)
    {| storage := [VStr "a"];
       observable := Observable.Make [Recorder 0] [Recorder 1];
       trace := [] |} =
  (Raised TypeError,
   {| storage := [VStr "a"];
      observable := Observable.Make [Recorder 0] [Recorder 1];
      trace := [(Recorder 0, Event "extend" (VInt 1) VNone (VInt 5))] |}) ∧
  ObservableList.extend (VStr "bc")
    {| storage := [VStr "a"];
       observable := Observable.Make [Recorder 0] [Recorder 1];
       trace := [] |} =
  (Ok tt,
   {| storage := [VStr "a"; VStr "b"; VStr "c"];
      observable := Observable.Make [Recorder 0] [Recorder 1];
      trace := [(Recorder 0, Event "extend" (VInt 1) VNone (VStr "bc"));
                (Recorder 1, Event "extend" (VInt 1) VNone (VStr "bc"))] |}).
Proof.
  split.
  - apply (list_extend_by_iterable
             {| storage := [VStr "a"];
                observable := Observable.Make [Recorder 0] [Recorder 1];
                trace := [] |} (VInt 5)); repeat constructor.
  - apply (list_extend_by_iterable
             {| storage := [VStr "a"];
                observable := Observable.Make [Recorder 0] [Recorder 1];
                trace := [] |} (VStr "bc")); repeat constructor.
Defined.

Lemma list_setitem_then_getitem_witness :
  ∃ w' : ObservableList.world,
    ObservableList.__setitem__ (-1) (VStr "z")
      {| storage := [VStr "a"; VStr "b"; VStr "c"];
         observable := Observable.Make [Recorder 0] [Recorder 1];
         trace := [] |} = (Ok tt, w') ∧
    ObservableList.list_getitem (-1) (storage w') = Some (VStr "z") ∧
    length (storage w') = 3%nat ∧
    ∀ j, j ≠ 2%nat → storage w' !! j = [VStr "a"; VStr "b"; VStr "c"] !! j.
Proof.
  apply (list_setitem_then_getitem
           {| storage := [VStr "a"; VStr "b"; VStr "c"];
              observable := Observable.Make [Recorder 0] [Recorder 1];
              trace := [] |} (-1) 2%nat (VStr "z")).
  - reflexivity.
  - repeat constructor.
  - repeat constructor.
Defined.

Lemma list_setitem_out_of_range_witness :
  ObservableList.__setitem__ 3 (VStr "z")
    {| storage := [VStr "a"; VStr "b"; VStr "c"];
       observable := Observable.Make [Recorder 0] [Recorder 1];
       trace := [] |} =
  (Raised IndexError,
   {| storage := [VStr "a"; VStr "b"; VStr "c"];
      observable := Observable.Make [Recorder 0] [Recorder 1];
      trace := [] |}).
Proof.
  apply (list_setitem_out_of_range
           {| storage := [VStr "a"; VStr "b"; VStr "c"];
              observable := Observable.Make [Recorder 0] [Recorder 1];
              trace := [] |} 3 (VStr "z")).
  simpl. lia.
Defined.

(** ** ObservableDict: the builtin operations on items *)

Section DictItems.
Import ObservableDict.
Implicit Types (d : items) (k v : value).

Lemma dict_lookup_setitem_eq k v d : dict_lookup k (dict_setitem k v d) = Some v.
Proof.
  induction d as [|[k0 x] d IH]; simpl.
  - rewrite py_same_refl. reflexivity.
  - destruct (py_same k0 k) eqn:E; simpl; rewrite E; [reflexivity|exact IH].
Qed.

Lemma dict_lookup_setitem_ne k k' v d :
  k ≠ k' → dict_lookup k' (dict_setitem k v d) = dict_lookup k' d.
Proof.
  intros Hne. induction d as [|[k0 x] d IH]; simpl.
  - apply py_same_false in Hne. rewrite Hne. reflexivity.
  - destruct (py_same k0 k) eqn:E; simpl.
    + apply py_same_sound in E as ->. apply py_same_false in Hne. rewrite Hne.
      reflexivity.
    + rewrite IH. reflexivity.
Qed.

Lemma dict_lookup_None k d : dict_lookup k d = None ↔ k ∉ d.*1.
Proof.
  induction d as [|[k0 x] d IH]; simpl.
  - split; [intros _; apply not_elem_of_nil|reflexivity].
  - rewrite not_elem_of_cons, <- IH. destruct (py_same k0 k) eqn:E.
    + apply py_same_sound in E as ->. split; [discriminate|intros [[] _]; reflexivity].
    + apply py_same_false in E. split; [intros H; split; [congruence|exact H]|].
      intros [_ H]. exact H.
Qed.

Lemma dict_setitem_keys k v d :
  (dict_setitem k v d).*1 =
  match dict_lookup k d with
  | Some _ => d.*1
  | None => d.*1 ++ [k]
  end.
Proof.
  induction d as [|[k0 x] d IH]; simpl; [reflexivity|].
  destruct (py_same k0 k) eqn:E; simpl; [reflexivity|].
  change (list_fmap _ _ fst (dict_setitem k v d)) with (dict_setitem k v d).*1.
  rewrite IH. destruct (dict_lookup k d); reflexivity.
Qed.

Lemma dict_setitem_unique k v d : NoDup d.*1 → NoDup (dict_setitem k v d).*1.
Proof.
  intros Hd. rewrite dict_setitem_keys.
  destruct (dict_lookup k d) eqn:E; [exact Hd|].
  apply NoDup_app. split; [exact Hd|]. split; [|apply NoDup_singleton].
  intros x Hx Hk. apply list_elem_of_singleton in Hk as ->.
  apply dict_lookup_None in E. contradiction.
Qed.

Lemma dict_delitem_keys k d (d' : items) :
  dict_delitem k d = Some d' → d'.*1 `sublist_of` d.*1.
Proof.
  revert d'. induction d as [|[k0 x] d IH]; intros d'; simpl; [discriminate|].
  destruct (py_same k0 k).
  - intros [= <-]. apply sublist_cons. reflexivity.
  - destruct (dict_delitem k d) as [d1|]; [|discriminate]. simpl.
    intros [= <-]. simpl. apply sublist_skip. apply IH. reflexivity.
Qed.

Lemma dict_delitem_lookup k d (d' : items) :
  NoDup d.*1 → dict_delitem k d = Some d' →
  dict_lookup k d' = None ∧
  ∀ k', k' ≠ k → dict_lookup k' d' = dict_lookup k' d.
Proof.
  revert d'. induction d as [|[k0 x] d IH]; intros d' Hd; simpl; [discriminate|].
  apply NoDup_cons in Hd as [Hk0 Hd]. destruct (py_same k0 k) eqn:E.
  - intros [= <-]. apply py_same_sound in E as ->. split.
    + apply dict_lookup_None. exact Hk0.
    + intros k' Hne. assert (E : py_same k k' = false) by (apply py_same_false; congruence).
      rewrite E. reflexivity.
  - destruct (dict_delitem k d) as [d1|] eqn:E1; [|discriminate]. simpl.
    intros [= <-]. destruct (IH d1 Hd eq_refl) as [Hnone Hother]. simpl.
    rewrite E. split; [exact Hnone|].
    intros k' Hne. rewrite (Hother k' Hne). reflexivity.
Qed.

Lemma removelast_sublist {A} (l : list A) : removelast l `sublist_of` l.
Proof.
  induction l as [|x [|y l] IH]; simpl.
  - reflexivity.
  - apply sublist_cons. reflexivity.
  - apply sublist_skip. exact IH.
Qed.

End DictItems.

(** ** ObservableDict: item assignment, deletion, popitem, update *)

Section DictMethods.
Import ObservableDict.
Implicit Types (w : world) (d : items) (k v : value).

(** What an item assignment that returns has left, in the embedding,
    where no observer writes to the dictionary. *)
Lemma dict_setitem_reads w (w' : world) k v :
  __setitem__ k v w = (Ok tt, w') →
  __getitem__ k w' = (Ok v, w') ∧
  ∀ k', k' ≠ k → dict_lookup k' (storage w') = dict_lookup k' (storage w).
Proof.
  intros Hset. rewrite setitem_run in Hset.
  destruct (run (plan (SetItem k v) (storage w)) w) as [[r|e|f] w1] eqn:Hrun;
    simpl in Hset; try discriminate.
  injection Hset as <-. apply run_ok_storage in Hrun. unfold plan in Hrun.
  unfold __getitem__.
  destruct (hashable k); [|destruct Hrun].
  unfold and_then, read, gets, expect.
  destruct (dict_lookup k (storage w)) as [old|] eqn:Hl.
  - destruct (py_eq old v) eqn:Heq.
    + destruct Hrun as [_ ->]. apply py_eq_sound in Heq as ->.
      rewrite Hl. auto.
    + destruct Hrun as [_ ->]. simpl. rewrite dict_lookup_setitem_eq.
      split; [reflexivity|]. intros k' Hne. apply dict_lookup_setitem_ne. congruence.
  - destruct Hrun as [_ ->]. simpl. rewrite dict_lookup_setitem_eq.
    split; [reflexivity|]. intros k' Hne. apply dict_lookup_setitem_ne. congruence.
Qed.

(** X16.  With observers that return and leave the dictionary alone, an
    item assignment under a hashable key returns and can be read back
    with [self[key]], and has left the values of all other keys as they
    were. *)
Theorem dict_setitem_then_getitem w k v :
  hashable k = true →
  Forall is_recorder (Observable._beforeObserverList (observable w)) →
  Forall is_recorder (Observable._afterObserverList (observable w)) →
  ∃ w' : world,
    __setitem__ k v w = (Ok tt, w') ∧
    __getitem__ k w' = (Ok v, w') ∧
    ∀ k', k' ≠ k → dict_lookup k' (storage w') = dict_lookup k' (storage w).
Proof.
  intros Hk HB HA.
  assert (Hret : ∃ w' : world, __setitem__ k v w = (Ok tt, w')).
  { rewrite setitem_run. unfold plan. rewrite Hk.
    destruct (dict_lookup k (storage w)) as [old|].
    - destruct (py_eq old v); [eexists; reflexivity|].
      rewrite run_recorders by assumption. eexists. reflexivity.
    - rewrite run_recorders by assumption. eexists. reflexivity. }
  destruct Hret as [w' Hset]. exists w'. split; [exact Hset|].
  apply (dict_setitem_reads _ _ _ _ Hset).
Qed.

(** X17.  [del d[key]] on a present key announces one DELETE with the stored
    value and removes the item: the key is gone afterwards and the other
    keys keep their values.  On an absent key it raises [KeyError] with
    nothing announced and nothing changed. *)
Theorem dict_delitem_removes_key w k :
  hashable k = true →
  NoDup (storage w).*1 →
  (∀ old,
     dict_lookup k (storage w) = Some old →
     Forall is_recorder (Observable._beforeObserverList (observable w)) →
     Forall is_recorder (Observable._afterObserverList (observable w)) →
     ∃ d',
       __delitem__ k w =
       (Ok tt,
        {| storage := d'; observable := observable w;
           trace := trace w ++
             pair_of_calls (observable w) (Event DELETE k old VNone) |}) ∧
       dict_lookup k d' = None ∧
       ∀ k', k' ≠ k → dict_lookup k' d' = dict_lookup k' (storage w)) ∧
  (dict_lookup k (storage w) = None →
   __delitem__ k w = (Raised KeyError, w)).
Proof.
  intros Hk Hd. split.
  - intros old Hl HB HA.
    destruct (dict_lookup_delitem k (storage w)) as [Hsome _].
    destruct (Hsome (ex_intro _ old Hl)) as [d' Hd'].
    exists d'. split; [|exact (dict_delitem_lookup _ _ _ Hd Hd')].
    apply (then_ret _ Nothing _ _ (Ok Nothing)).
    change (exec (DelItem k) w = (Ok Nothing,
      {| storage := d'; observable := observable w;
         trace := trace w ++
           pair_of_calls (observable w) (Event DELETE k old VNone) |})).
    rewrite dict_exec_plan. unfold plan. rewrite Hk, Hl, Hd'.
    apply run_recorders; assumption.
  - intros Hl. apply (then_ret _ Nothing _ _ (Raised KeyError)).
    change (exec (DelItem k) w = (Raised KeyError, w)).
    rewrite dict_exec_plan. unfold plan. rewrite Hk, Hl. reflexivity.
Qed.

Lemma popitem_last w d k v :
  storage w = d ++ [(k, v)] →
  Forall is_recorder (Observable._beforeObserverList (observable w)) →
  Forall is_recorder (Observable._afterObserverList (observable w)) →
  popitem w =
  (Ok (k, v),
   {| storage := d; observable := observable w;
      trace := trace w ++
        pair_of_calls (observable w) (Event DELETE k v VNone) |}).
Proof.
  intros Hs HB HA.
  assert (Hplan : plan PopItem (storage w) =
                  Fire (Event DELETE k v VNone) (Ok (Item k v), d)).
  { unfold plan, dict_popitem. rewrite Hs, last_snoc. simpl.
    rewrite removelast_last. reflexivity. }
  pose proof (dict_exec_plan PopItem w) as He. rewrite Hplan in He.
  rewrite run_recorders in He by assumption.
  unfold exec, and_then, ret in He.
  destruct (popitem w) as [[[k1 v1]|e|f] w1] eqn:Hp; simpl in He; try discriminate.
  injection He as -> -> <-. reflexivity.
Qed.

(** X18.  [popitem()] takes the item that was inserted last: it announces one
    DELETE under that item's key, removes the item and returns it.  On an
    empty dictionary it raises [IndexError], from indexing the list of
    items, with nothing announced. *)
Theorem dict_popitem_takes_last w :
  (∀ d k v,
     storage w = d ++ [(k, v)] →
     Forall is_recorder (Observable._beforeObserverList (observable w)) →
     Forall is_recorder (Observable._afterObserverList (observable w)) →
     popitem w =
     (Ok (k, v),
      {| storage := d; observable := observable w;
         trace := trace w ++
           pair_of_calls (observable w) (Event DELETE k v VNone) |})) ∧
  (storage w = [] → popitem w = (Raised IndexError, w)).
Proof.
  split.
  - intros d k v. apply popitem_last.
  - intros Hs. pose proof (dict_exec_plan PopItem w) as He.
    unfold plan in He. rewrite Hs in He. cbn [last] in He.
    unfold exec, and_then, ret in He. unfold run, raise in He.
    destruct (popitem w) as [[[k1 v1]|e|f] w1] eqn:Hp; simpl in He; try discriminate.
    injection He as -> ->. reflexivity.
Qed.

(** X19.  Assigning to a key that is not there and calling [popitem()] next
    returns that key with its value and gives back the dictionary there
    was, having announced one CREATE and one DELETE. *)
Theorem dict_setitem_then_popitem w k v :
  hashable k = true →
  dict_lookup k (storage w) = None →
  Forall is_recorder (Observable._beforeObserverList (observable w)) →
  Forall is_recorder (Observable._afterObserverList (observable w)) →
  (__setitem__ k v ;; popitem) w =
  (Ok (k, v),
   {| storage := storage w; observable := observable w;
      trace := trace w ++
        pair_of_calls (observable w) (Event CREATE k VNone v) ++
        pair_of_calls (observable w) (Event DELETE k v VNone) |}).
Proof.
  intros Hk Hl HB HA. unfold and_then at 1.
  rewrite setitem_run. unfold plan. rewrite Hk, Hl.
  rewrite run_recorders by assumption. cbn [fst snd].
  assert (Hset : dict_setitem k v (storage w) = storage w ++ [(k, v)]).
  { revert Hl. clear. induction (storage w) as [|[k0 x] d IH]; simpl; [reflexivity|].
    destruct (py_same k0 k); [discriminate|]. intros H. rewrite (IH H). reflexivity. }
  rewrite (popitem_last _ (storage w) k v); simpl.
  - rewrite <- app_assoc. reflexivity.
  - exact Hset.
  - exact HB.
  - exact HA.
Qed.

End DictMethods.

Section DictUpdate.
Import ObservableDict.
Implicit Types (w : world) (d : items) (k v : value).

Lemma dict_setitem_id k v d : dict_lookup k d = Some v → dict_setitem k v d = d.
Proof.
  induction d as [|[k0 x] d IH]; simpl; [discriminate|].
  destruct (py_same k0 k); [intros [= ->]; reflexivity|].
  intros H. rewrite (IH H). reflexivity.
Qed.

Lemma for_each_setitem_recorders (ws : list (value * value)) w :
  Forall (λ kv, hashable kv.1 = true) ws →
  Forall is_recorder (Observable._beforeObserverList (observable w)) →
  Forall is_recorder (Observable._afterObserverList (observable w)) →
  for_each ws (λ kv, __setitem__ kv.1 kv.2) w =
  (Ok tt,
   {| storage := foldl (λ d kv, dict_setitem kv.1 kv.2 d) (storage w) ws;
      observable := observable w;
      trace := trace w ++
        flat_map (pair_of_calls (observable w)) (announcements (storage w) ws) |}).
Proof.
  intros Hws. revert w. induction Hws as [|[k v] ws Hk _ IH]; intros w HB HA.
  - destruct w. simpl. unfold ret. rewrite app_nil_r. reflexivity.
  - cbn [for_each foldl announcements fst snd] in *. unfold and_then.
    rewrite setitem_run. unfold plan. rewrite Hk.
    destruct (dict_lookup k (storage w)) as [old|] eqn:Hl.
    + destruct (py_eq old v) eqn:Heq.
      * cbn [run ret fst snd]. rewrite IH by assumption.
        apply py_eq_sound in Heq as ->. rewrite (dict_setitem_id _ _ _ Hl).
        reflexivity.
      * rewrite run_recorders by assumption. cbn [fst snd].
        rewrite IH by assumption. cbn [storage observable trace flat_map].
        rewrite <- app_assoc. reflexivity.
    + rewrite run_recorders by assumption. cbn [fst snd].
      rewrite IH by assumption. cbn [storage observable trace flat_map].
      rewrite <- app_assoc. reflexivity.
Qed.

(** X20.  With hashable keys and observers that return, [update] returns; the
    dictionary it leaves is the one its item assignments build one after
    the other (the items of [data], then for a sequence of pairs the
    keyword arguments), so a key written twice ends with the later value,
    and each assignment that changes the dictionary is announced in that
    order. *)
Theorem dict_update_assigns_in_order
    (data : data) (kvargs : list (string * value)) w :
  Forall (λ kv, hashable kv.1 = true) (writes data kvargs) →
  Forall is_recorder (Observable._beforeObserverList (observable w)) →
  Forall is_recorder (Observable._afterObserverList (observable w)) →
  update data kvargs w =
  (Ok tt,
   {| storage :=
        foldl (λ d kv, dict_setitem kv.1 kv.2 d) (storage w) (writes data kvargs);
      observable := observable w;
      trace := trace w ++
        flat_map (pair_of_calls (observable w))
          (announcements (storage w) (writes data kvargs)) |}).
Proof.
  intros Hws HB HA. rewrite update_writes.
  apply for_each_setitem_recorders; assumption.
Qed.

End DictUpdate.

Lemma dict_setitem_then_getitem_witness :
  ∃ w' : ObservableDict.world,
    ObservableDict.__setitem__ (VStr "x") (VInt 2)
      {| storage := [(VStr "x", VInt 1); (VStr "y", VInt 5)];
         observable := Observable.Make [Recorder 0] [Recorder 1];
         trace := [] |} = (Ok tt, w') ∧
    ObservableDict.__getitem__ (VStr "x") w' = (Ok (VInt 2), w') ∧
    ∀ k', k' ≠ VStr "x" →
          ObservableDict.dict_lookup k' (storage w') =
          ObservableDict.dict_lookup k' [(VStr "x", VInt 1); (VStr "y", VInt 5)].
Proof.
  apply (dict_setitem_then_getitem
           {| storage := [(VStr "x", VInt 1); (VStr "y", VInt 5)];
              observable := Observable.Make [Recorder 0] [Recorder 1];
              trace := [] |} (VStr "x") (VInt 2)).
  - reflexivity.
  - repeat constructor.
  - repeat constructor.
Defined.

Lemma dict_delitem_removes_key_witness :
  (∃ d',
     ObservableDict.__delitem__ (VStr "x")
       {| storage := [(VStr "x", VInt 1); (VStr "y", VInt 5)];
          observable := Observable.Make [Recorder 0] [Recorder 1];
          trace := [] |} =
     (Ok tt,
      {| storage := d';
         observable := Observable.Make [Recorder 0] [Recorder 1];
         trace := [(Recorder 0, Event "delete" (VStr "x") (VInt 1) VNone);
                   (Recorder 1, Event "delete" (VStr "x") (VInt 1) VNone)] |}) ∧
     ObservableDict.dict_lookup (VStr "x") d' = None ∧
     ∀ k', k' ≠ VStr "x" →
           ObservableDict.dict_lookup k' d' =
           ObservableDict.dict_lookup k' [(VStr "x", VInt 1); (VStr "y", VInt 5)]) ∧
  ObservableDict.__delitem__ (VStr "z")
    {| storage := [(VStr "x", VInt 1); (VStr "y", VInt 5)];
       observable := Observable.Make [Recorder 0] [Recorder 1];
       trace := [] |} =
  (Raised KeyError,
   {| storage := [(VStr "x", VInt 1); (VStr "y", VInt 5)];
      observable := Observable.Make [Recorder 0] [Recorder 1];
      trace := [] |}).
Proof.
  assert (Hd : NoDup [VStr "x"; VStr "y"]).
  { apply NoDup_cons. split; [|apply NoDup_singleton].
    intros H. apply list_elem_of_singleton in H. discriminate. }
  split.
  - apply (proj1 (dict_delitem_removes_key
             {| storage := [(VStr "x", VInt 1); (VStr "y", VInt 5)];
                observable := Observable.Make [Recorder 0] [Recorder 1];
                trace := [] |} (VStr "x") eq_refl Hd) (VInt 1)).
    + reflexivity.
    + repeat constructor.
    + repeat constructor.
  - apply (proj2 (dict_delitem_removes_key
             {| storage := [(VStr "x", VInt 1); (VStr "y", VInt 5)];
                observable := Observable.Make [Recorder 0] [Recorder 1];
                trace := [] |} (VStr "z") eq_refl Hd)).
    reflexivity.
Defined.

Lemma dict_popitem_takes_last_witness :
  ObservableDict.popitem
    {| storage := [(VStr "a", VInt 1)];
       observable := Observable.Make [Recorder 0] [Recorder 1];
       trace := [] |} =
  (Ok (VStr "a", VInt 1),
   {| storage := [];
      observable := Observable.Make [Recorder 0] [Recorder 1];
      trace := [(Recorder 0, Event "delete" (VStr "a") (VInt 1) VNone);
                (Recorder 1, Event "delete" (VStr "a") (VInt 1) VNone)] |}) ∧
  ObservableDict.popitem
    {| storage := [];
       observable := Observable.Make [Recorder 0] [Recorder 1];
       trace := [] |} =
  (Raised IndexError,
   {| storage := [];
      observable := Observable.Make [Recorder 0] [Recorder 1];
      trace := [] |}).
Proof.
  split.
  - apply (proj1 (dict_popitem_takes_last
             {| storage := [(VStr "a", VInt 1)];
                observable := Observable.Make [Recorder 0] [Recorder 1];
                trace := [] |}) [] (VStr "a") (VInt 1)).
    + reflexivity.
    + repeat constructor.
    + repeat constructor.
  - apply (proj2 (dict_popitem_takes_last
             {| storage := [];
                observable := Observable.Make [Recorder 0] [Recorder 1];
                trace := [] |})).
    reflexivity.
Defined.

Lemma dict_setitem_then_popitem_witness :
  (ObservableDict.__setitem__ (VStr "z") (VInt 9) ;; ObservableDict.popitem)
    {| storage := [(VStr "a", VInt 1)];
       observable := Observable.Make [Recorder 0] [];
       trace := [] |} =
  (Ok (VStr "z", VInt 9),
   {| storage := [(VStr "a", VInt 1)];
      observable := Observable.Make [Recorder 0] [];
      trace := [(Recorder 0, Event "create" (VStr "z") VNone (VInt 9));
                (Recorder 0, Event "delete" (VStr "z") (VInt 9) VNone)] |}).
Proof.
  apply (dict_setitem_then_popitem
           {| storage := [(VStr "a", VInt 1)];
              observable := Observable.Make [Recorder 0] [];
              trace := [] |} (VStr "z") (VInt 9)).
  - reflexivity.
  - reflexivity.
  - repeat constructor.
  - constructor.
Defined.

Lemma dict_update_assigns_in_order_witness :
  ObservableDict.update
    (ObservableDict.DataPairs [(VStr "a", VInt 1); (VStr "a", VInt 2)])
    [("b", VInt 3)]
    {| storage := [(VStr "b", VInt 3)];
       observable := Observable.Make [Recorder 0] [];
       trace := [] |} =
  (Ok tt,
   {| storage := [(VStr "b", VInt 3); (VStr "a", VInt 2)];
      observable := Observable.Make [Recorder 0] [];
      trace := [(Recorder 0, Event "create" (VStr "a") VNone (VInt 1));
                (Recorder 0, Event "modify" (VStr "a") (VInt 1) (VInt 2))] |}).
Proof.
  apply (dict_update_assigns_in_order
           (ObservableDict.DataPairs [(VStr "a", VInt 1); (VStr "a", VInt 2)])
           [("b", VInt 3)]
           {| storage := [(VStr "b", VInt 3)];
              observable := Observable.Make [Recorder 0] [];
              trace := [] |}).
  - repeat constructor.
  - repeat constructor.
  - constructor.
Defined.

(** ** ObservableObject: attributes *)

Section ObjectMethods.
Import ObservableObject.
Implicit Types (w : world) (key : string) (v : value).





(** X23.  Under a name that starts with an underscore and is not one of
    the reserved ones (the two observer lists, [__class__], [__dict__],
    [__weakref__]), assigning an attribute the instance does not have and
    deleting it again leaves no trace at all: the world is as it was and
    no observer has been called. *)
Theorem object_private_setattr_then_delattr w key v :
  startswith "_" key = true →
  reserved key = false →
  storage w !! key = None →
  (__setattr__ key v ;; __delattr__ key) w = (Ok tt, w).
Proof.
  intros Hp Hr Hl. destruct w as [attrs obs t]. simpl in Hl.
  unfold __setattr__, __delattr__. rewrite Hp.
  unfold and_then. rewrite (object_setattr_plain _ _ _ Hr).
  rewrite (object_delattr_plain _ _ Hr). simpl.
  rewrite lookup_insert_eq. rewrite delete_insert_eq.
  rewrite (delete_id _ _ Hl). reflexivity.
Qed.

End ObjectMethods.



Lemma object_private_setattr_then_delattr_witness :
  (ObservableObject.__setattr__ "_x" (VInt 1) ;; ObservableObject.__delattr__ "_x")
    {| storage := ∅;
       observable := Observable.Make [Recorder 0] [Recorder 1];
       trace := [] |} =
  (Ok tt,
   {| storage := ∅;
      observable := Observable.Make [Recorder 0] [Recorder 1];
      trace := [] |}).
Proof.
  apply (object_private_setattr_then_delattr
           {| storage := ∅;
              observable := Observable.Make [Recorder 0] [Recorder 1];
              trace := [] |} "_x" (VInt 1)); reflexivity.
Defined.

(** ** ObservableValue: reading back, reach and depth of a [set] *)

Section ValueMethods.
Import ObservableValue.
Implicit Types (w : world) (self : ref) (o : t) (v : value).

(** X24.  Where every observer returns, raises or is a closure of
    [bind_to], a [set(v)] that returns is read back by [get()], whatever
    the value is bound to. *)
Theorem value_set_then_get (fuel : nat) w (w' : world) self o v :
  no_setters w →
  heap w !! self = Some o →
  set fuel self v w = (Ok tt, w') →
  get self w' = (Ok v, w').
Proof.
  intros Hns Hl Hset.
  pose proof (set_establishes _ _ _ _ _ _ Hns Hl Hset) as Hv.
  unfold value_of in Hv. unfold get, and_then, load, ret.
  destruct (heap w' !! self) as [o'|]; [|discriminate].
  simpl in Hv. injection Hv as ->. reflexivity.
Qed.

(** When [self] has an after-observer that sets it to a value of its own,
    a [set(v)] returns with that value in place. *)
Lemma value_set_overwritten_by_observer :
  let w := {| heap := [{| observable := Observable.Make [] [Setter 0 0%nat 0];
                          _value := VInt 1; _bindingMap := ∅ |}];
              next_id := 0; trace := [] |} in
  let w' := (set 3 0%nat (VInt 5) w).2 in
  set 3 0%nat (VInt 5) w = (Ok tt, w') ∧ get 0%nat w' = (Ok (VInt 0), w').
Proof. split; reflexivity. Qed.

(** X25.  Where every observer returns, raises or is a closure of
    [bind_to], a [set(v)], however it ends, has created no object and
    lost none, has left every observer list and every binding map as it
    was, and has changed no value except to [v]; and when [v] is equal to
    itself, every call it added to the trace announces the change of an
    object that did not hold [v] before. *)
Theorem value_set_changes_values_only (fuel : nat) w self v :
  no_setters w →
  let w' := (set fuel self v w).2 in
  next_id w' = next_id w ∧
  length (heap w') = length (heap w) ∧
  (∀ r o, heap w !! r = Some o →
     ∃ o', heap w' !! r = Some o' ∧
           observable o' = observable o ∧ _bindingMap o' = _bindingMap o ∧
           (_value o' = _value o ∨ _value o' = v)) ∧
  ∃ t, trace w' = trace w ++ t ∧
       (py_eq v v = true →
        Forall (λ c, value_of w (source c.2) ≠ Some v) t).
Proof.
  intros Hns w'. pose proof (set_settles fuel self v w Hns) as Hs.
  fold w' in Hs.
  pose proof (Forall2_length _ _ _ (settles_heaps _ _ _ _ Hs)) as Hlen.
  destruct Hs as (Hid & Hheap & t & Htr & Ht).
  split; [exact Hid|]. split; [symmetry; exact Hlen|]. split.
  - intros r o Ho. specialize (Hheap r). rewrite Ho in Hheap. exact Hheap.
  - exists t. split; [exact Htr|]. intros Hvv.
    eapply Forall_impl; [exact Ht|]. intros c Hc. exact (Hc Hvv).
Qed.

End ValueMethods.

Section ValueDepth.
Import ObservableValue.
Implicit Types (w : world) (self : ref) (o : t) (v : value) (P : ref → Prop).

Lemma settles_pending (v : value) P w (w' : world) :
  py_eq v v = true →
  settles v P w w' → (pending v w' ≤ pending v w)%nat.
Proof.
  intros Hvv Hs. apply settles_heaps in Hs. unfold pending.
  induction Hs as [|o o' h h' [_ Hv] _ IH]; [reflexivity|]. simpl.
  destruct Hv as [Hv|Hv]; rewrite Hv.
  - destruct (negb (py_eq (_value o) v)); simpl; lia.
  - rewrite Hvv. simpl.
    destruct (negb (py_eq (_value o) v)); simpl; lia.
Qed.

Lemma pending_stored v w self o :
  py_eq v v = true →
  heap w !! self = Some o → py_eq (_value o) v = false →
  S (pending v (stored self o v w)) = pending v w.
Proof.
  intros Hvv. unfold pending. simpl. generalize (heap w). intros h. revert self.
  induction h as [|x h IH]; intros [|i]; simpl; try discriminate.
  - intros [= ->] Heq. rewrite Heq, Hvv. reflexivity.
  - intros Hl Heq. destruct (negb (py_eq (_value x) v)); simpl;
      rewrite <- (IH i Hl Heq); reflexivity.
Qed.

(** Observers that leave the observables alone end a dispatch by
    returning or by raising. *)
Lemma call_each_users_outcome (set_ : ref → value → M world unit)
    (observers : list callback) (a : args) w (f : fault) :
  Forall passive observers →
  (Observable.call_each (call set_) observers a w).1 ≠ Fault f.
Proof.
  intros H. revert w. induction H as [|cb rest Hcb _ IH]; intros w.
  - discriminate.
  - cbn [Observable.call_each]. unfold and_then at 1.
    unfold call, and_then, log, modify.
    destruct cb as [id|id e|id target|id target z]; simpl.
    + apply IH.
    + discriminate.
    + destruct Hcb.
    + destruct Hcb.
Qed.

Section Dispatch.
Variable fuel : nat.
Hypothesis set_depth :
  ∀ self v w, no_setters w → forwards_after_only w → py_eq v v = true →
              (pending v w < fuel)%nat →
              (set fuel self v w).1 ≠ Fault OutOfFuel.

Lemma dispatch_depth (observers : list callback) self (old v : value) w :
  Forall (λ cb, ¬ is_setter cb) observers →
  no_setters w → forwards_after_only w → py_eq v v = true →
  (pending v w < fuel)%nat →
  (Observable.call_each (call (set fuel)) observers (Args self old v) w).1
    ≠ Fault OutOfFuel.
Proof.
  intros Hobs. revert w.
  induction Hobs as [|cb rest Hcb _ IH]; intros w Hns Hf Hvv Hp.
  - discriminate.
  - cbn [Observable.call_each]. unfold and_then at 1.
    unfold call, and_then, log, modify.
    set (w1 := {| heap := heap w |}).
    assert (Hns1 : no_setters w1) by exact Hns.
    assert (Hf1 : forwards_after_only w1) by exact Hf.
    assert (Hp1 : (pending v w1 < fuel)%nat) by exact Hp.
    destruct cb as [id|id e|id target|id target z]; cbn [fst snd new_value].
    + apply IH; assumption.
    + discriminate.
    + pose proof (set_depth target v w1 Hns1 Hf1 Hvv Hp1) as Hd.
      pose proof (set_settles fuel target v w1 Hns1) as Hs.
      destruct (set fuel target v w1) as [[[]|e|f] w2]; simpl in Hd, Hs.
      * apply IH.
        -- eapply keeps_no_setters; [eapply settles_keeps, Hs|exact Hns1].
        -- eapply keeps_forwards_after_only; [eapply settles_keeps, Hs|exact Hf1].
        -- exact Hvv.
        -- pose proof (settles_pending _ _ _ _ Hvv Hs). lia.
      * discriminate.
      * exact Hd.
    + destruct Hcb. exact I.
Qed.

End Dispatch.

(** X26.  The depth of a [set(v)] is bounded by the number of objects that
    do not hold [v] yet: given more recursion depth than that, [set] runs
    to its end, through whatever web of bindings.  This is so for a value
    that is equal to itself, where every observer returns, raises or is a
    closure of [bind_to], and the closures are registered where [bind_to]
    registers them, as after-observers. *)
Theorem value_set_depth_bounded (fuel : nat) self v w :
  no_setters w → forwards_after_only w → py_eq v v = true →
  (pending v w < fuel)%nat →
  (set fuel self v w).1 ≠ Fault OutOfFuel.
Proof.
  revert self v w.
  induction fuel as [|fuel IH]; intros self v w Hns Hf Hvv Hp; [lia|].
  destruct (heap w !! self) as [o|] eqn:Hl.
  2: { simpl. unfold and_then, load. rewrite Hl. discriminate. }
  destruct (py_eq (_value o) v) eqn:Heq.
  { rewrite (set_noop _ _ _ _ _ Hl Heq). discriminate. }
  rewrite (set_unfold _ _ _ _ _ Hl Heq).
  assert (HB : Forall passive (Observable._beforeObserverList (observable o))).
  { unfold forwards_after_only in Hf. rewrite Forall_lookup in Hf.
    apply (Hf self o Hl). }
  destruct (no_setters_lookup _ _ _ Hns Hl) as [_ HA].
  pose proof (call_each_users_outcome (set fuel) _
                (Args self (_value o) v) w OutOfFuel HB) as Hout.
  destruct (Observable.call_each _ _ _ w) as [[[]|e|f] w1] eqn:Hbefore.
  - apply (call_each_users_ok _ _ _ _ _ HB) in Hbefore as ->.
    change (heap (logged _ _ w)) with (heap w). rewrite Hl.
    pose proof (keeps_stored v (logged
                  (Observable._beforeObserverList (observable o))
                  (Args self (_value o) v) w) self o Hl) as Hk.
    apply (dispatch_depth fuel IH); [exact HA| | |exact Hvv|].
    + eapply keeps_no_setters; [exact Hk|exact Hns].
    + eapply keeps_forwards_after_only; [exact Hk|exact Hf].
    + pose proof (pending_stored v w self o Hvv Hl Heq) as Hps.
      change (pending v (stored self o v (logged
                (Observable._beforeObserverList (observable o))
                (Args self (_value o) v) w)))
        with (pending v (stored self o v w)).
      lia.
  - discriminate.
  - exact Hout.
Qed.

End ValueDepth.

Lemma value_set_then_get_witness :
  let w := ((do ab <- ObservableValue.two_values (VInt 1) (VInt 2);
             ObservableValue.bind 1 (ObservableValue.Obs ab.1)
               (ObservableValue.Obs ab.2)) ObservableValue.empty).2 in
  let w' := (ObservableValue.set 3 1%nat (VInt 5) w).2 in
  ObservableValue.get 1%nat w' = (Ok (VInt 5), w').
Proof.
  intros w w'.
  apply (value_set_then_get 3 w w' 1%nat
           {| ObservableValue.observable := Observable.Make [] [Forwarder 1 0%nat];
              ObservableValue._value := VInt 1;
              ObservableValue._bindingMap := {[0%nat := Forwarder 0 1%nat]} |}
           (VInt 5)).
  - repeat constructor; intros [].
  - reflexivity.
  - reflexivity.
Defined.

Lemma value_set_depth_bounded_witness :
  let w := ((do ab <- ObservableValue.two_values (VInt 1) (VInt 2);
             ObservableValue.bind 1 (ObservableValue.Obs ab.1)
               (ObservableValue.Obs ab.2)) ObservableValue.empty).2 in
  (ObservableValue.set 3 0%nat (VInt 5) w).1 ≠ Fault OutOfFuel.
Proof.
  intros w. apply (value_set_depth_bounded 3 0%nat (VInt 5) w).
  - repeat constructor; intros [].
  - repeat constructor.
  - reflexivity.
  - vm_compute. lia.
Defined.

(** ** ObservableValue: what a binding does, and undoing it *)

Section ValueBindings.
Import ObservableValue.
Implicit Types (w : world) (a b : ref) (o : t) (v : value).

(** The objects [a.bind_to(b)] leaves behind, however its final [set]
    ends. *)
Lemma bind_to_shape (fuel : nat) w a b oa ob :
  a ≠ b → heap w !! a = Some oa → heap w !! b = Some ob →
  let handle := Forwarder (next_id w) a in
  let w1 := (bind_to fuel a (Obs b) w).2 in
  next_id w1 = S (next_id w) ∧
  (∃ oa', heap w1 !! a = Some oa' ∧ observable oa' = observable oa ∧
          _bindingMap oa' = <[b := handle]> (_bindingMap oa)) ∧
  (∃ ob', heap w1 !! b = Some ob' ∧
          observable ob' = Observable.add_after_observer handle (observable ob) ∧
          _bindingMap ob' = _bindingMap ob).
Proof.
  intros Hne Ha Hb handle w1.
  assert (Hla : (a < length (heap w))%nat) by (eapply lookup_lt_Some, Ha).
  assert (Hlb : (b < length (heap w))%nat) by (eapply lookup_lt_Some, Hb).
  assert (Hne' : b ≠ a) by (intros E; apply Hne; symmetry; exact E).
  unfold w1. rewrite (bind_to_unfold fuel a b w oa ob Hne Ha Hb).
  fold handle.
  set (w0 := {| heap := _; next_id := S (next_id w) |}).
  pose proof (set_keeps fuel a (_value ob) w0) as Hs.
  split; [destruct Hs as (-> & _); reflexivity|].
  split.
  - destruct (keeps_lookup _ _ a
                (with_bindingMap (insert b handle) oa) Hs)
      as (o' & Ho' & Hobs & Hmap).
    + simpl. rewrite list_lookup_insert_ne by exact Hne'.
      apply list_lookup_insert_eq. exact Hla.
    + exists o'. auto.
  - destruct (keeps_lookup _ _ b
                (with_observable (Observable.add_after_observer handle) ob) Hs)
      as (o' & Ho' & Hobs & Hmap).
    + simpl. apply list_lookup_insert_eq. rewrite length_insert. exact Hlb.
    + exists o'. auto.
Qed.

(** X27.  [a.bind_to(b)] cannot be undone by [a.unbind_from(b)] when [a] and
    [b] are two objects: [bind_to] records a new closure under [b] and
    registers it with [b]; [unbind_from] looks for it among the
    after-observers of [a], raises [ValueError] and leaves the closure on
    [b] and the binding in the map.  This holds however the [set] that
    ends [bind_to] went. *)
Theorem value_bind_to_then_unbind_from (fuel : nat) w a b oa ob :
  a ≠ b → heap w !! a = Some oa → heap w !! b = Some ob →
  closures_allocated w →
  let handle := Forwarder (next_id w) a in
  let w1 := (bind_to fuel a (Obs b) w).2 in
  binding w1 a b = Some handle ∧
  after_observers w1 b =
    Some (Observable._afterObserverList (observable ob) ++ [handle]) ∧
  unbind_from a (Obs b) w1 = (Raised ValueError, w1).
Proof.
  intros Hne Ha Hb Halloc handle w1.
  destruct (bind_to_shape fuel w a b oa ob Hne Ha Hb)
    as (_ & (oa' & Ha' & Hobsa & Hmapa) & (ob' & Hb' & Hobsb & _)).
  fold handle w1 in Ha', Hmapa, Hb', Hobsb.
  split; [|split].
  - unfold binding. rewrite Ha'. simpl. rewrite Hmapa. apply lookup_insert_eq.
  - unfold after_observers. rewrite Hb'. simpl. rewrite Hobsb. reflexivity.
  - apply (unbind_from_raises w1 a b oa' handle Ha').
    + rewrite Hmapa. apply lookup_insert_eq.
    + rewrite Hobsa. intros Hin.
      pose proof (Halloc a oa (next_id w) a Ha Hin). lia.
Qed.

(** X28.  Nor does [ObservableValue.unbind(a, b)] undo
    [ObservableValue.bind(a, b)]: its first step is [a.unbind_from(b)],
    which raises [ValueError], so the second step is not reached and the
    world stays as [bind] left it. *)
Theorem value_bind_then_unbind (fuel : nat) w (w1 : world) a b oa ob :
  a ≠ b → heap w !! a = Some oa → heap w !! b = Some ob →
  closures_allocated w →
  bind fuel (Obs a) (Obs b) w = (Ok tt, w1) →
  unbind (Obs a) (Obs b) w1 = (Raised ValueError, w1).
Proof.
  intros Hne Ha Hb Halloc Hbind.
  assert (Hne' : b ≠ a) by (intros E; apply Hne; symmetry; exact E).
  unfold bind, receiver, and_then, ret in Hbind.
  pose proof (bind_to_shape fuel w b a ob oa Hne' Hb Ha) as H1.
  destruct (bind_to fuel b (Obs a) w) as [[[]|e|f] w'] eqn:E1;
    try discriminate.
  cbn [snd] in H1. cbn beta iota in Hbind.
  destruct H1 as (Hid & (ob' & Hb' & _) & (oa' & Ha' & Hobsa & _)).
  pose proof (bind_to_shape fuel w' a b oa' ob' Hne Ha' Hb') as H2.
  rewrite Hbind in H2. cbn [snd] in H2.
  destruct H2 as (_ & (oa2 & Ha2 & Hobs2 & Hmap2) & _).
  unfold unbind, receiver, and_then, ret.
  rewrite (unbind_from_raises w1 a b oa2 (Forwarder (next_id w') a) Ha2).
  - reflexivity.
  - rewrite Hmap2. apply lookup_insert_eq.
  - rewrite Hobs2, Hobsa. simpl. intros Hin.
    apply elem_of_app in Hin as [Hin|Hin].
    + pose proof (Halloc a oa _ a Ha Hin). lia.
    + apply list_elem_of_singleton in Hin. injection Hin. lia.
Qed.


End ValueBindings.

Lemma value_set_changes_values_only_witness :
  let w := ((do ab <- ObservableValue.two_values (VInt 1) (VInt 2);
             ObservableValue.bind 1 (ObservableValue.Obs ab.1)
               (ObservableValue.Obs ab.2)) ObservableValue.empty).2 in
  let w' := (ObservableValue.set 3 0%nat (VInt 5) w).2 in
  ObservableValue.next_id w' = ObservableValue.next_id w ∧
  length (ObservableValue.heap w') = length (ObservableValue.heap w) ∧
  (∀ r o, ObservableValue.heap w !! r = Some o →
     ∃ o', ObservableValue.heap w' !! r = Some o' ∧
           ObservableValue.observable o' = ObservableValue.observable o ∧
           ObservableValue._bindingMap o' = ObservableValue._bindingMap o ∧
           (ObservableValue._value o' = ObservableValue._value o ∨
            ObservableValue._value o' = VInt 5)) ∧
  ∃ t, ObservableValue.trace w' = ObservableValue.trace w ++ t ∧
       Forall (λ c, ObservableValue.value_of w (ObservableValue.source c.2)
                    ≠ Some (VInt 5)) t.
Proof.
  intros w w'.
  assert (Hns : ObservableValue.no_setters w) by (repeat constructor; intros []).
  destruct (value_set_changes_values_only 3 w 0%nat (VInt 5) Hns)
    as (Hid & Hlen & Hheap & t & Htr & Ht).
  split; [exact Hid|]. split; [exact Hlen|]. split; [exact Hheap|].
  exists t. split; [exact Htr|]. apply Ht. reflexivity.
Defined.

Lemma value_bind_to_then_unbind_from_witness :
  let w := (ObservableValue.two_values (VInt 1) (VInt 2) ObservableValue.empty).2 in
  let w1 := (ObservableValue.bind_to 1 0%nat (ObservableValue.Obs 1%nat) w).2 in
  ObservableValue.binding w1 0%nat 1%nat = Some (Forwarder 0 0%nat) ∧
  ObservableValue.after_observers w1 1%nat = Some [Forwarder 0 0%nat] ∧
  ObservableValue.unbind_from 0%nat (ObservableValue.Obs 1%nat) w1 =
    (Raised ValueError, w1).
Proof.
  intros w w1.
  apply (value_bind_to_then_unbind_from 1 w 0%nat 1%nat
           {| ObservableValue.observable := Observable.__init__;
              ObservableValue._value := VInt 1;
              ObservableValue._bindingMap := ∅ |}
           {| ObservableValue.observable := Observable.__init__;
              ObservableValue._value := VInt 2;
              ObservableValue._bindingMap := ∅ |}).
  - lia.
  - reflexivity.
  - reflexivity.
  - intros [|[|r]] o id target Hl Hin; simpl in Hl; [| |discriminate];
      injection Hl as <-; simpl in Hin; inversion Hin.
Defined.

Lemma value_bind_then_unbind_witness :
  let w := (ObservableValue.two_values (VInt 1) (VInt 2) ObservableValue.empty).2 in
  let w1 := (ObservableValue.bind 1 (ObservableValue.Obs 0%nat)
               (ObservableValue.Obs 1%nat) w).2 in
  ObservableValue.unbind (ObservableValue.Obs 0%nat) (ObservableValue.Obs 1%nat) w1 =
    (Raised ValueError, w1).
Proof.
  intros w w1.
  apply (value_bind_then_unbind 1 w w1 0%nat 1%nat
           {| ObservableValue.observable := Observable.__init__;
              ObservableValue._value := VInt 1;
              ObservableValue._bindingMap := ∅ |}
           {| ObservableValue.observable := Observable.__init__;
              ObservableValue._value := VInt 2;
              ObservableValue._bindingMap := ∅ |}).
  - lia.
  - reflexivity.
  - reflexivity.
  - intros [|[|r]] o id target Hl Hin; simpl in Hl; [| |discriminate];
      injection Hl as <-; simpl in Hin; inversion Hin.
  - reflexivity.
Defined.


(** * One announcement per change, and observers that raise *)

Section StepLaws.
Context {T R : Type}.
Implicit Types (w : world T) (s : step T R).



End StepLaws.

Section Registered.
Context {T : Type}.
Implicit Types (w : world T).




End Registered.

(** ** ObservableList: what each method announces and leaves *)

Section ListChange.
Import ObservableList.
Variable list_sort : value → value → M (list value) unit.
Implicit Types (o : op) (l : list value).



End ListChange.

(** ** ObservableDict: what each method announces and leaves *)

Section DictChange.
Import ObservableDict.
Implicit Types (o : op) (d : items) (k v : value).









End DictChange.

(** ** ObservableObject: what each statement announces and leaves *)

Section ObjectChange.
Import ObservableObject.
Implicit Types (o : op) (attrs : gmap string value).


End ObjectChange.





